(** * Video-Agent: the scene pipeline, the duration prober, the storage
    publisher and the request gateway.

    The embedding follows [generateVideoAndUpload], [uploadVideoToSupabase]
    and [getAudioDuration] of [src/videoAgent.ts] (the version that streams
    speech through the SDK), the handler of [src/index.ts], and the
    [getAudioDuration] of the earlier agent, which spawns the inspection
    tool itself.

    JavaScript strings are modelled as [string]: sequences of code units
    below 256, so that the texts covered are those whose characters lie
    below U+0100.  Byte buffers are [string] as well, numbers are binary64
    [float], note identifiers are numbers or strings, and the asynchronous
    code is a state and exception monad over an explicit machine state
    (temporary files, storage bucket, trace of observable effects).  What
    the external services and the runtime answer is a parameter
    ([World]). *)

From Stdlib Require Import ZArith Lia List String Ascii Floats DecimalString.
From Stdlib Require Import DecimalPos DecimalZ.
From stdpp Require Import base option list strings gmap.

(** ** Strings *)

Module Str.

(** [s.length === 0] *)
Definition isEmpty (s : string) : bool :=
  match s with EmptyString => true | String _ _ => false end.

(** White space removed by [String.prototype.trim].  Of the characters
    that it removes, seven lie below U+0100 and so occur in the strings
    of this development: TAB, LF, VT, FF, CR, SP and NBSP. *)
Definition isWhiteSpace (c : ascii) : bool :=
  let n := nat_of_ascii c in
  ((9 <=? n)%nat && (n <=? 13)%nat) || (n =? 32)%nat || (n =? 160)%nat.

Fixpoint trimStart (s : string) : string :=
  match s with
  | String c s' => if isWhiteSpace c then trimStart s' else s
  | EmptyString => EmptyString
  end.

Fixpoint trimEnd (s : string) : string :=
  match s with
  | String c s' =>
      let r := trimEnd s' in
      if isWhiteSpace c && isEmpty r then EmptyString else String c r
  | EmptyString => EmptyString
  end.

(** [s.trim()] *)
Definition trim (s : string) : string := trimEnd (trimStart s).

(** [parts.join(sep)] *)
Definition join (sep : string) (parts : list string) : string :=
  String.concat sep parts.

(** Template-literal rendering of a non-negative integer such as a loop
    index or an HTTP status. *)
Definition ofNat (n : nat) : string := NilZero.string_of_uint (Nat.to_uint n).

(** Template-literal rendering of an integer-valued number. *)
Definition ofZ (z : Z) : string := NilZero.string_of_int (Z.to_int z).


(** The longest prefix whose characters all satisfy [p], and what is
    left after it. *)
Fixpoint takeWhile (p : ascii -> bool) (s : string) : string :=
  match s with
  | String c s' => if p c then String c (takeWhile p s') else EmptyString
  | EmptyString => EmptyString
  end.

Fixpoint dropWhile (p : ascii -> bool) (s : string) : string :=
  match s with
  | String c s' => if p c then dropWhile p s' else s
  | EmptyString => EmptyString
  end.


End Str.

(** ** The sentence-boundary regular expression

    [/[^.!?]+[.!?]+/g] is a sequence of two greedy [+]-quantified
    character classes.  The matcher below is the usual backtracking one:
    a quantifier first consumes as much as it can and gives characters
    back while the continuation fails. *)

Module Regex.

(** The class [[.!?]]. *)
Definition isTerminator (c : ascii) : bool :=
  Ascii.eqb c "." || Ascii.eqb c "!" || Ascii.eqb c "?".

(** The class [[^.!?]]. *)
Definition notTerminator (c : ascii) : bool := negb (isTerminator c).

(** [cls*] followed by continuation [k]; the result is the input left
    after the whole match. *)
Fixpoint star (cls : ascii -> bool) (k : string -> option string)
    (s : string) : option string :=
  match s with
  | String c s' =>
      if cls c then
        match star cls k s' with
        | Some r => Some r
        | None => k s
        end
      else k s
  | EmptyString => k s
  end.

(** [cls+] followed by continuation [k]. *)
Definition plus (cls : ascii -> bool) (k : string -> option string)
    (s : string) : option string :=
  match s with
  | String c s' => if cls c then star cls k s' else None
  | EmptyString => None
  end.

(** One attempt of [[^.!?]+[.!?]+] anchored at the start of [s]. *)
Definition sentence (s : string) : option string :=
  plus notTerminator (plus isTerminator Some) s.

(** The scan of the [g] flag: try at the current position; on success
    emit the matched text and resume after it, otherwise move one
    character forward.  A match is never empty, so the input left
    shrinks at every step and [fuel] above the length is never used up. *)
Fixpoint scan (fuel : nat) (s : string) : list string :=
  match fuel with
  | O => []
  | S fuel' =>
      match s with
      | EmptyString => []
      | String _ s' =>
          match sentence s with
          | Some rest =>
              substring 0 (String.length s - String.length rest) s
                :: scan fuel' rest
          | None => scan fuel' s'
          end
      end
  end.

(** [text.match(/[^.!?]+[.!?]+/g)]: the array of matches, or [null]. *)
Definition matchAll (text : string) : option (list string) :=
  match scan (S (String.length text)) text with
  | [] => None
  | ms => Some ms
  end.

End Regex.

(** [const scenes = noteText.match(/[^.!?]+[.!?]+/g) || [];] *)
Definition scenes (noteText : string) : list string :=
  match Regex.matchAll noteText with
  | Some ms => ms
  | None => []
  end.

(** The texts handed to the synthesizers: [scenes[i].trim()]. *)
Definition sceneTexts (noteText : string) : list string :=
  map Str.trim (scenes noteText).

(** ** The specification's vocabulary for the scene splitter

    These follow the words of the specification, not the code: they are
    what the splitter's result is compared with. *)

(** The text contains a sentence terminator. *)
Fixpoint containsTerminator (s : string) : bool :=
  match s with
  | EmptyString => false
  | String c s' => Regex.isTerminator c || containsTerminator s'
  end.

(** The input up to and including its last terminator. *)
Fixpoint upToLastTerminator (s : string) : string :=
  match s with
  | EmptyString => EmptyString
  | String c s' =>
      if containsTerminator s then String c (upToLastTerminator s')
      else EmptyString
  end.

(** The input without the terminators it starts with. *)
Definition dropLeadingTerminators (s : string) : string :=
  Str.dropWhile Regex.isTerminator s.

(** A list of scene texts reconstructs [content] modulo trimming: each
    scene is the trimmed form of a piece, and the pieces, in order,
    concatenate to [content]. *)
Definition reconstructs (texts : list string) (content : string) : Prop :=
  exists pieces : list string,
    texts = map Str.trim pieces /\ String.concat EmptyString pieces = content.

(** The splitter property in the specification's wording, for one
    input: a text with a terminator gives a non-empty sequence that
    reconstructs the text up to and including its last terminator. *)
Definition splitterProperty (noteText : string) : Prop :=
  containsTerminator noteText = true ->
  sceneTexts noteText <> [] /\
  reconstructs (sceneTexts noteText) (upToLastTerminator noteText).

(** ** Errors, results and the machine *)

(** A thrown JavaScript error: its [message], and the [statusCode] that
    the speech SDK attaches to HTTP failures. *)
Record JsError := mkError { message : string; statusCode : option nat }.

(** [new Error(msg)] *)
Definition Error (msg : string) : JsError := mkError msg None.

Inductive Result (A : Type) : Type :=
| Ok (a : A)
| Throw (e : JsError).
Arguments Ok {A} a.
Arguments Throw {A} e.

(** Effects visible outside the process, in the order they happen. *)
Inductive Event :=
| EMkdtemp (dir : string)
| EWriteFile (path content : string)
| EReadFile (path : string)
| ETextToSpeech (voiceId modelId text : string)
| EFetch (url authorization prompt : string)
| ESleep (ms : N)
| EProbe (path : string)
| EEncode (imageList audioList output : string)
| EUpload (bucket key : string) (upsert : bool)
| ERemove (dir : string).

(** The state a request runs against: the local files and directories,
    the objects of the storage service, the number of requests made to
    external services so far, and the trace of effects (oldest first). *)
Record Machine := mkMachine {
  files : gmap string string;
  dirs : gset string;
  storage : gmap (string * string) string;
  calls : nat;
  trace : list Event
}.

Definition emit (e : Event) (m : Machine) : Machine :=
  mkMachine (files m) (dirs m) (storage m) (calls m) (trace m ++ [e]).

Definition tick (m : Machine) : Machine :=
  mkMachine (files m) (dirs m) (storage m) (S (calls m)) (trace m).

(** A number or a string.  [metadata.format.duration] is one: the probing
    library turns the text that the inspection tool printed into a number
    when it is made of digits (with a fraction or without), and leaves it
    as it is otherwise. *)
Inductive JsValue :=
| JsNumber (n : float)
| JsString (s : string).

(** ** The outside world

    What external services answer is not decided by the program; a
    [World] fixes it.  Each service is asked with the number of requests
    made before, so that two calls with equal arguments may be answered
    differently. *)

Inductive TtsOutcome :=
| TtsRejected (e : JsError)
| TtsStream (chunks : list string) (failure : option JsError).

Inductive FetchOutcome :=
| FetchFailed (e : JsError)
| FetchResponse (status : nat) (body : string).

Inductive ProbeOutcome :=
| ProbeError (e : JsError)
| ProbeMetadata (duration : option JsValue).

Inductive EncodeOutcome :=
| EncodeError (e : JsError)
| EncodeEnd (output : string).

(** [!v] for a value that is a string or [undefined], as in
    [!huggingFaceToken], [!noteText] and [!subjectName]. *)
Definition notString (v : option string) : bool :=
  match v with
  | None => true
  | Some s => Str.isEmpty s
  end.

(** The environment variables are those with which the module was
    loaded: loading [videoAgent.ts] throws when the image token is
    missing ([moduleLoaded]), and nothing changes the environment later.

    Three fields belong to the runtime and to the speech SDK rather than
    to a service.  [numberToString] is [Number.prototype.toString] on the
    numbers that are not safe integers.  [speechResends] is how often the
    speech SDK sends the request of one call again before it answers
    (it does so when the service answers with a server error).
    [objectPrototype] gives, for a property name that every object
    inherits ([constructor], [toString], ...), the text of the inherited
    value in a template literal; that value is a function or an object,
    hence truthy. *)
Record World := mkWorld {
  WORKER_SECRET_KEY : option string;
  HUGGINGFACE_API_TOKEN : option string;
  moduleLoaded : notString HUGGINGFACE_API_TOKEN = false;
  SUPABASE_URL : string;
  tmpdir : string;
  cwd : string;
  mkdtempSuffix : string;
  textToSpeech : nat -> string -> TtsOutcome;
  fetchImage : nat -> string -> FetchOutcome;
  ffprobe : nat -> string -> ProbeOutcome;
  ffmpeg : nat -> option string -> option string -> EncodeOutcome;
  storageFailure : nat -> string -> option JsError;
  numberToString : float -> string;
  speechResends : nat -> string -> nat;
  objectPrototype : string -> option string
}.

(** ** The monad of asynchronous code: state and exceptions *)

Definition M (A : Type) : Type := Machine -> Result A * Machine.

#[global] Instance M_ret : MRet M := fun A a m => (Ok a, m).

#[global] Instance M_bind : MBind M := fun A B f c m =>
  match c m with
  | (Ok a, m1) => f a m1
  | (Throw e, m1) => (Throw e, m1)
  end.

(** [throw e] *)
Definition throw {A : Type} (e : JsError) : M A := fun m => (Throw e, m).

(** [try { body } catch (error) { handler }] *)
Definition tryCatch {A : Type} (body : M A) (handler : JsError -> M A) : M A :=
  fun m =>
    match body m with
    | (Ok a, m1) => (Ok a, m1)
    | (Throw e, m1) => handler e m1
    end.

(** [try { body } finally { cleanup }]: the cleanup runs on both exits;
    the outcome is the body's unless the cleanup itself throws. *)
Definition tryFinally {A : Type} (body : M A) (cleanup : M unit) : M A :=
  fun m =>
    let (r, m1) := body m in
    match cleanup m1 with
    | (Ok _, m2) => (r, m2)
    | (Throw e, m2) => (Throw e, m2)
    end.

(** ** Paths and the local file system

    POSIX paths, already normalised: [path.join] puts one separator
    between its arguments and [path.resolve] leaves an absolute path as
    it is.  Operations on the request's own temporary directory do not
    fail. *)

(** [path.join(a, b)] *)
Definition pathJoin (a b : string) : string := a +:+ "/" +:+ b.

(** [path.resolve(p)] *)
Definition pathResolve (w : World) (p : string) : string :=
  match p with
  | String "/" _ => p
  | _ => pathJoin (cwd w) p
  end.

(** [p] is [dir] itself or lies below it. *)
Definition underDir (dir p : string) : bool :=
  String.eqb p dir || String.prefix (dir +:+ "/") p.

(** [fs.mkdtemp(prefix)] *)
Definition mkdtemp (w : World) (pfx : string) : M string := fun m =>
  let dir := pfx +:+ mkdtempSuffix w in
  (Ok dir,
   emit (EMkdtemp dir)
     (mkMachine (files m) ({[dir]} ∪ dirs m) (storage m) (calls m) (trace m))).

(** [fs.writeFile(path, content)] *)
Definition writeFile (path content : string) : M unit := fun m =>
  (Ok tt,
   emit (EWriteFile path content)
     (mkMachine (<[path:=content]> (files m)) (dirs m) (storage m) (calls m)
        (trace m))).

(** [fs.readFile(path)] *)
Definition readFile (path : string) : M string := fun m =>
  match files m !! path with
  | Some content => (Ok content, emit (EReadFile path) m)
  | None =>
      (Throw (Error ("ENOENT: no such file or directory, open '" +:+ path +:+ "'")),
       emit (EReadFile path) m)
  end.

(** [fs.rm(dir, { recursive: true, force: true })] *)
Definition rm (dir : string) : M unit := fun m =>
  (Ok tt,
   emit (ERemove dir)
     (mkMachine (filter (fun kv => underDir dir kv.1 = false) (files m))
        (dirs m ∖ {[dir]}) (storage m) (calls m) (trace m))).

(** [await new Promise(resolve => setTimeout(resolve, ms))] *)
Definition sleep (ms : N) : M unit := fun m => (Ok tt, emit (ESleep ms) m).

(** ** External services *)

Definition voiceId : string := "21m00Tcm4TlvDq8ikWAM".
Definition modelId : string := "eleven_multilingual_v2".
Definition modelEndpoint : string :=
  "https://api-inference.huggingface.co/models/stabilityai/stable-diffusion-xl-base-1.0".

(** [elevenlabs.textToSpeech.convertAsStream(voiceId, { text, model_id })]
    followed by [for await (const chunk of audioStream) chunks.push(chunk)]:
    the chunks received, unless the call or the stream fails.  One call
    of the SDK is one event of the trace; it counts for as many requests
    as the SDK sends, the first and the repeated ones. *)
Definition convertAsStream (w : World) (text : string) : M (list string) :=
  fun m =>
    let m0 := emit (ETextToSpeech voiceId modelId text) m in
    let m1 := mkMachine (files m0) (dirs m0) (storage m0)
                (S (speechResends w (calls m) text + calls m)) (trace m0) in
    match textToSpeech w (calls m) text with
    | TtsRejected e => (Throw e, m1)
    | TtsStream chunks (Some e) => (Throw e, m1)
    | TtsStream chunks None => (Ok chunks, m1)
    end.

(** A [Response] of [node-fetch]. *)
Record HttpResponse := mkResponse { status : nat; body : string }.

(** [response.ok] *)
Definition ok (r : HttpResponse) : bool :=
  (200 <=? status r)%nat && (status r <=? 299)%nat.

(** [fetch(modelEndpoint, fetchOptions)] *)
Definition fetch (w : World) (authorization prompt : string) : M HttpResponse :=
  fun m =>
    let m1 := tick (emit (EFetch modelEndpoint authorization prompt) m) in
    match fetchImage w (calls m) prompt with
    | FetchFailed e => (Throw e, m1)
    | FetchResponse st bd => (Ok (mkResponse st bd), m1)
    end.

(** [ffmpeg.ffprobe(filePath, (err, metadata) => ...)]: the callback's
    two arguments, with [metadata.format.duration]. *)
Definition ffprobeCall (w : World) (filePath : string) : M ProbeOutcome :=
  fun m => (Ok (ffprobe w (calls m) filePath), tick (emit (EProbe filePath) m)).

(** The [ffmpeg()...save(finalVideoPath)] command with its [end] and
    [error] events: the encoder reads the two lists and, when it ends,
    has written the output file. *)
Definition encode (w : World) (imageListPath audioListPath output : string)
    : M unit :=
  fun m =>
    let m1 := tick (emit (EEncode imageListPath audioListPath output) m) in
    match ffmpeg w (calls m) (files m !! imageListPath) (files m !! audioListPath) with
    | EncodeError e => (Throw e, m1)
    | EncodeEnd out =>
        (Ok tt,
         mkMachine (<[output:=out]> (files m1)) (dirs m1) (storage m1)
           (calls m1) (trace m1))
    end.

(** The error with which the storage service refuses to create an object
    whose key is taken. *)
Definition alreadyExists : JsError :=
  mkError "The resource already exists" (Some 409).

(** [supabase.storage.from(bucket).upload(key, data, { upsert })]: the
    call resolves to its [error] field.  The service may fail for reasons
    of its own ([storageFailure]); otherwise it stores the object, and
    refuses a taken key only when [upsert] is off. *)
Definition storageUpload (w : World) (bucket key data : string) (upsert : bool)
    : M (option JsError) :=
  fun m =>
    let m1 := tick (emit (EUpload bucket key upsert) m) in
    match storageFailure w (calls m) key with
    | Some e => (Ok (Some e), m1)
    | None =>
        match storage m !! (bucket, key), upsert with
        | Some _, false => (Ok (Some alreadyExists), m1)
        | _, _ =>
            (Ok None,
             mkMachine (files m1) (dirs m1) (<[(bucket, key):=data]> (storage m1))
               (calls m1) (trace m1))
        end
    end.

(** The characters that [encodeURI] leaves as they are: letters, digits
    and [; / ? : @ & = + $ , # - _ . ! ~ * ' ( )]. *)
Definition uriUnescaped (c : ascii) : bool :=
  let n := nat_of_ascii c in
  ((65 <=? n)%nat && (n <=? 90)%nat) || ((97 <=? n)%nat && (n <=? 122)%nat)
  || ((48 <=? n)%nat && (n <=? 57)%nat)
  || existsb (Ascii.eqb c) (list_ascii_of_string ";/?:@&=+$,#-_.!~*'()").

Definition hexDigit (n : nat) : ascii :=
  nth n (list_ascii_of_string "0123456789ABCDEF") "0"%char.

(** [%XX] for one byte. *)
Definition percentByte (byte : nat) : string :=
  String "%"%char
    (String (hexDigit (byte / 16)) (String (hexDigit (byte mod 16)) EmptyString)).

(** [encodeURI(s)]: every other character is replaced by the escaped
    bytes of its UTF-8 form, which has one byte below U+0080 and two from
    there to U+00FF. *)
Fixpoint encodeURI (s : string) : string :=
  match s with
  | EmptyString => EmptyString
  | String c s' =>
      let n := nat_of_ascii c in
      (if uriUnescaped c then String c EmptyString
       else if (n <? 128)%nat then percentByte n
       else percentByte (192 + n / 64) +:+ percentByte (128 + n mod 64))
      +:+ encodeURI s'
  end.

(** [supabase.storage.from(bucket).getPublicUrl(key).data.publicUrl]: the
    client escapes the URL that it builds. *)
Definition getPublicUrl (w : World) (bucket key : string) : string :=
  encodeURI
    (SUPABASE_URL w +:+ "/storage/v1/object/public/" +:+ bucket +:+ "/" +:+ key).

(** ** The video agent ([videoAgent.ts]) *)

(** The integer that a number is, when it is a safe integer (an integer
    of magnitude below 2^53; the two zeros are 0). *)
Definition safeInteger (n : float) : option Z :=
  match Prim2SF n with
  | S754_zero _ => Some 0%Z
  | S754_finite negative mantissa exponent =>
      let magnitude :=
        if (0 <=? exponent)%Z then Some (Z.pos mantissa * 2 ^ exponent)%Z
        else if (Z.pos mantissa mod 2 ^ (- exponent) =? 0)%Z
             then Some (Z.pos mantissa / 2 ^ (- exponent))%Z
             else None in
      match magnitude with
      | Some z =>
          if (z <? 2 ^ 53)%Z then Some (if negative then (- z)%Z else z) else None
      | None => None
      end
  | _ => None
  end.

(** [`${n}`] for a number: the decimal digits of a safe integer, and
    what the runtime prints for any other number. *)
Definition printNumber (w : World) (n : float) : string :=
  match safeInteger n with
  | Some z => Str.ofZ z
  | None => numberToString w n
  end.

(** [`${v}`] *)
Definition printValue (w : World) (v : JsValue) : string :=
  match v with
  | JsNumber n => printNumber w n
  | JsString s => s
  end.

(** A note identifier as it arrives in the JSON body: a number or a
    string. *)
Inductive NoteId :=
| IdNumber (n : float)
| IdString (s : string).

(** [`${noteId}`] *)
Definition noteIdToString (w : World) (noteId : NoteId) : string :=
  match noteId with
  | IdNumber n => printNumber w n
  | IdString s => s
  end.

(** The declared type of [duration] is [number]; the value is what the
    prober resolved with. *)
Record SceneAsset := mkAsset {
  audioPath : string;
  imagePath : string;
  duration : JsValue
}.

(** [!huggingFaceToken] *)
Definition tokenMissing (w : World) : bool :=
  notString (HUGGINGFACE_API_TOKEN w).

(** [`Bearer ${value}`] for an environment variable, which is a string
    or [undefined]. *)
Definition bearer (value : option string) : string :=
  "Bearer " +:+ default "undefined" value.

Definition styleGuide : list (string * string) :=
  [ ("Biology", "clear educational diagram style, vibrant colors, labels");
    ("Chemistry", "scientific illustration of molecules and reactions, digital art");
    ("Physics", "clean physics diagram, showing forces and vectors, minimalist");
    ("History", "realistic historical photograph style, black and white, cinematic lighting");
    ("Literature", "dramatic oil painting, expressive, rich colors");
    ("Mathematics", "clear handwritten chalkboard style, showing the steps of the equation") ].

(** [styleGuide[subjectName] || "simple educational illustration"], as
    the prompt shows it.  [styleGuide] is an object literal, so that a
    name it does not list is looked up among the inherited properties
    before the fallback applies. *)
Definition subjectStyle (w : World) (subjectName : string) : string :=
  match List.find (fun kv => String.eqb kv.1 subjectName) styleGuide with
  | Some kv => if Str.isEmpty kv.2 then "simple educational illustration" else kv.2
  | None =>
      match objectPrototype w subjectName with
      | Some inherited => inherited
      | None => "simple educational illustration"
      end
  end.

(** The double-quote character. *)
Definition dquote : string := String (ascii_of_nat 34) EmptyString.

Definition imagePrompt (w : World) (subjectName sceneText : string) : string :=
  "An educational visual for a " +:+ subjectName +:+ " tutorial about: "
  +:+ dquote +:+ sceneText +:+ dquote +:+ ". Style: " +:+ subjectStyle w subjectName
  +:+ ".".

(** The audio block of the scene loop: synthesize the narration of
    [sceneText] and save it as [scene_<i>.mp3]. *)
Definition sceneAudio (w : World) (tempDir : string) (i : nat)
    (sceneText : string) : M string :=
  let audioPath := pathJoin tempDir ("scene_" +:+ Str.ofNat i +:+ ".mp3") in
  tryCatch
    (chunks ← convertAsStream w sceneText;
     let audioBuffer := String.concat EmptyString chunks in
     if (String.length audioBuffer =? 0)%nat
     then throw (Error "ElevenLabs SDK returned an empty audio stream.")
     else writeFile audioPath audioBuffer)
    (fun error =>
       if bool_decide (statusCode error = Some 401)
       then throw (Error "ElevenLabs authentication failed (401). Please check the API key on your Render server.")
       else throw (Error ("ElevenLabs SDK failed: " +:+ message error)));;
  mret audioPath.

(** The image block of the scene loop: one request, a second one after
    20 seconds when the first is answered 503, and the image saved as
    [scene_<i>.png]. *)
Definition sceneImage (w : World) (tempDir : string) (i : nat)
    (sceneText subjectName : string) : M string :=
  let imagePath := pathJoin tempDir ("scene_" +:+ Str.ofNat i +:+ ".png") in
  tryCatch
    (let prompt := imagePrompt w subjectName sceneText in
     let authorization := bearer (HUGGINGFACE_API_TOKEN w) in
     first ← fetch w authorization prompt;
     response ←
       (if (status first =? 503)%nat
        then sleep 20000%N;; fetch w authorization prompt
        else mret first);
     if negb (ok response)
     then throw (Error ("Hugging Face API failed with status "
                        +:+ Str.ofNat (status response) +:+ ": " +:+ body response))
     else writeFile imagePath (body response))
    (fun error => throw error);;
  mret imagePath.

(** [value || 0]: the value itself unless it is falsy, that is
    [undefined], a zero, [NaN] or the empty string. *)
Definition orZero (value : option JsValue) : JsValue :=
  match value with
  | Some (JsNumber d) =>
      if PrimFloat.is_nan d || PrimFloat.eqb d 0 then JsNumber 0 else JsNumber d
  | Some (JsString s) => if Str.isEmpty s then JsNumber 0 else JsString s
  | None => JsNumber 0
  end.

(** [getAudioDuration(filePath)] *)
Definition getAudioDuration (w : World) (filePath : string) : M JsValue :=
  outcome ← ffprobeCall w filePath;
  match outcome with
  | ProbeError err => throw err
  | ProbeMetadata d => mret (orZero d)
  end.

(** The [for (let i = 0; i < scenes.length; i++)] loop, from index [i]
    on, with the assets pushed so far. *)
Fixpoint sceneLoop (w : World) (tempDir subjectName : string) (i : nat)
    (rest : list string) (sceneAssets : list SceneAsset) : M (list SceneAsset) :=
  match rest with
  | [] => mret sceneAssets
  | scene :: rest' =>
      let sceneText := Str.trim scene in
      audio ← sceneAudio w tempDir i sceneText;
      image ← sceneImage w tempDir i sceneText subjectName;
      d ← getAudioDuration w audio;
      sceneLoop w tempDir subjectName (S i) rest'
        (sceneAssets ++ [mkAsset audio image d])
  end.

(** The line-feed character, and the string made of it. *)
Definition lf : ascii := ascii_of_nat 10.

Definition newline : string := String lf EmptyString.

(** One entry of the image list. *)
Definition imageEntry (w : World) (a : SceneAsset) : string :=
  "file '" +:+ pathResolve w (imagePath a) +:+ "'" +:+ newline
  +:+ "duration " +:+ printValue w (duration a).

(** One entry of the audio list. *)
Definition audioEntry (w : World) (a : SceneAsset) : string :=
  "file '" +:+ pathResolve w (audioPath a) +:+ "'".

Definition imageListContent (w : World) (sceneAssets : list SceneAsset) : string :=
  Str.join newline (map (imageEntry w) sceneAssets).

Definition audioListContent (w : World) (sceneAssets : list SceneAsset) : string :=
  Str.join newline (map (audioEntry w) sceneAssets).

(** [uploadVideoToSupabase(supabaseAdmin, noteId, videoBuffer)] *)
Definition uploadVideoToSupabase (w : World) (noteId : NoteId)
    (videoBuffer : string) : M string :=
  let filePath := "note-videos/" +:+ noteIdToString w noteId +:+ ".mp4" in
  uploadError ← storageUpload w "videos" filePath videoBuffer true;
  match uploadError with
  | Some _ => throw (Error "Failed to upload video to Supabase Storage.")
  | None => mret (getPublicUrl w "videos" filePath)
  end.

(** The body of the [try] block of [generateVideoAndUpload]. *)
Definition generateInTempDir (w : World) (tempDir : string) (noteId : NoteId)
    (noteText subjectName : string) : M string :=
  let scenes := scenes noteText in
  if (List.length scenes =? 0)%nat
  then throw (Error "Could not break note into scenes.")
  else
    sceneAssets ← sceneLoop w tempDir subjectName 0 scenes [];
    let finalVideoPath := pathJoin tempDir "final_video.mp4" in
    let imageListPath := pathJoin tempDir "imagelist.txt" in
    writeFile imageListPath (imageListContent w sceneAssets);;
    let audioListPath := pathJoin tempDir "audiolist.txt" in
    writeFile audioListPath (audioListContent w sceneAssets);;
    encode w imageListPath audioListPath finalVideoPath;;
    videoBuffer ← readFile finalVideoPath;
    if (String.length videoBuffer =? 0)%nat
    then throw (Error "FFmpeg produced an empty video file.")
    else uploadVideoToSupabase w noteId videoBuffer.

(** [generateVideoAndUpload(supabaseAdmin, noteId, noteText, subjectName)] *)
Definition generateVideoAndUpload (w : World) (noteId : NoteId)
    (noteText subjectName : string) : M string :=
  if tokenMissing w then throw (Error "Missing HUGGINGFACE_API_TOKEN")
  else
    tempDir ← mkdtemp w (pathJoin (tmpdir w) "ai-video-");
    tryFinally
      (generateInTempDir w tempDir noteId noteText subjectName)
      (rm tempDir).

(** ** The request gateway ([index.ts]) *)

(** The JSON body after [express.json()]: each field is present or not. *)
Record Body := mkBody {
  noteId : option NoteId;
  noteText : option string;
  subjectName : option string
}.

Record Request := mkRequest {
  authorization : option string;
  reqBody : Body
}.

(** [res.status(code).json(fields)] *)
Record Response := mkReply {
  code : nat;
  json : list (string * string)
}.

(** [!n] for a number: it is a zero or [NaN]. *)
Definition notNumber (n : float) : bool :=
  PrimFloat.eqb n 0 || PrimFloat.is_nan n.

(** [!noteId] *)
Definition notNoteId (v : option NoteId) : bool :=
  match v with
  | None => true
  | Some (IdNumber n) => notNumber n
  | Some (IdString s) => Str.isEmpty s
  end.

Definition unauthorized : Response := mkReply 401 [("error", "Unauthorized")].

Definition missingParameters : Response :=
  mkReply 400 [("error", "Missing required parameters.")].

Definition complete (publicUrl : string) : Response :=
  mkReply 200 [("status", "complete"); ("videoUrl", publicUrl)].

Definition failed (error : JsError) : Response :=
  mkReply 500 [("error", "Failed to generate video."); ("details", message error)].

(** The handler of [app.post('/generate-video', ...)].  The last branch
    of the inner [match] is never taken: a missing field is falsy. *)
Definition generateVideoHandler (w : World) (req : Request) : M Response :=
  tryCatch
    (let authHeader := authorization req in
     if negb (bool_decide (authHeader = Some (bearer (WORKER_SECRET_KEY w))))
     then mret unauthorized
     else
       let b := reqBody req in
       if notNoteId (noteId b) || notString (noteText b) || notString (subjectName b)
       then mret missingParameters
       else
         match noteId b, noteText b, subjectName b with
         | Some id, Some text, Some subject =>
             publicUrl ← generateVideoAndUpload w id text subject;
             mret (complete publicUrl)
         | _, _, _ => mret missingParameters
         end)
    (fun error => mret (failed error)).

(** ** The earlier duration prober, which runs the inspection tool itself *)

Module Legacy.

(** [`${code}`] for the exit code of a child process, [null] when it was
    ended by a signal. *)
Definition codeToString (exitCode : option Z) : string :=
  match exitCode with
  | Some c => Str.ofZ c
  | None => "null"
  end.

(** [getAudioDuration(filePath)], at the [close] event of the
    subprocess: [chunks] is what it wrote to its standard output.
    [parseFloat] is the JavaScript builtin. *)
Definition getAudioDuration (parseFloat : string -> float)
    (exitCode : option Z) (chunks : list string) : Result float :=
  let output := String.concat EmptyString chunks in
  if bool_decide (exitCode = Some 0%Z)
  then
    let duration := parseFloat (Str.trim output) in
    Ok (if PrimFloat.is_nan duration then 0%float else duration)
  else Throw (Error ("FFPROBE failed with code " +:+ codeToString exitCode)).

End Legacy.

(** A machine on which nothing has happened yet. *)
Definition freshMachine : Machine := mkMachine ∅ ∅ ∅ 0 [].

(** Running a request on a machine. *)
Definition run {A : Type} (c : M A) (m : Machine) : Result A * Machine := c m.

(** The directory that [generateVideoAndUpload] creates in world [w]. *)
Definition tempDirOf (w : World) : string :=
  pathJoin (tmpdir w) "ai-video-" +:+ mkdtempSuffix w.

(** The storage key under which the video of a note is published. *)
Definition videoKey (w : World) (noteId : NoteId) : string :=
  "note-videos/" +:+ noteIdToString w noteId +:+ ".mp4".

(** The files of scene [i]. *)
Definition audioPathOf (tempDir : string) (i : nat) : string :=
  pathJoin tempDir ("scene_" +:+ Str.ofNat i +:+ ".mp3").

Definition imagePathOf (tempDir : string) (i : nat) : string :=
  pathJoin tempDir ("scene_" +:+ Str.ofNat i +:+ ".png").

(** The errors of the specification's taxonomy, as the code throws them. *)
Definition emptyInputError : JsError := Error "Could not break note into scenes.".

Definition ttsAuthError : JsError :=
  Error "ElevenLabs authentication failed (401). Please check the API key on your Render server.".

Definition ttsCallError (reason : string) : JsError :=
  Error ("ElevenLabs SDK failed: " +:+ reason).

Definition imageCallError (status : nat) (body : string) : JsError :=
  Error ("Hugging Face API failed with status " +:+ Str.ofNat status +:+ ": " +:+ body).

(** The error with which a speech request fails, if it does: the call is
    rejected, or the stream breaks. *)
Definition ttsFailure (o : TtsOutcome) : option JsError :=
  match o with
  | TtsRejected e => Some e
  | TtsStream _ failure => failure
  end.

(** The request sent to the image service for a scene. *)
Definition imageRequest (w : World) (subjectName sceneText : string) : Event :=
  EFetch modelEndpoint (bearer (HUGGINGFACE_API_TOKEN w))
    (imagePrompt w subjectName sceneText).

(** The request carries exactly the configured bearer secret. *)
Definition authorized (w : World) (req : Request) : Prop :=
  authorization req = Some (bearer (WORKER_SECRET_KEY w)).

(** One of the three required fields is present in the body but falsy. *)
Definition presentButFalsy (b : Body) : Prop :=
  (exists n, noteId b = Some (IdNumber n) /\ notNumber n = true)
  \/ noteId b = Some (IdString EmptyString)
  \/ noteText b = Some EmptyString \/ subjectName b = Some EmptyString.


(** The assets of the scenes numbered from [i] on, given the durations
    measured for them. *)
Fixpoint assetsFrom (tempDir : string) (i : nat) (durations : list JsValue)
    : list SceneAsset :=
  match durations with
  | [] => []
  | d :: ds =>
      mkAsset (audioPathOf tempDir i) (imagePathOf tempDir i) d
        :: assetsFrom tempDir (S i) ds
  end.







(** The trace of [m'] continues the trace of [m] with [evs]. *)
Definition continues (m m' : Machine) (evs : list Event) : Prop :=
  trace m' = trace m ++ evs.

(** A computation only ever adds to the trace. *)
Definition monotone {A : Type} (c : M A) : Prop :=
  forall m r m', c m = (r, m') -> exists evs, continues m m' evs.

Definition isFetch (e : Event) : bool :=
  match e with EFetch _ _ _ => true | _ => false end.

(** ** A sample world

    Speech comes back in two chunks; the image service is warming up at
    the call numbered 1 and answers 200 afterwards; every narration lasts
    2.5 seconds; the encoder and the storage service work. *)

(** Number printing for the sample runs, in which 2.5 is the one number
    that is not a safe integer. *)
Definition sampleNumberToString (d : float) : string :=
  if PrimFloat.eqb d 2.5 then "2.5" else "NaN".

(** The properties that every object inherits, with the texts that the
    runtime gives for them. *)
Definition sampleObjectPrototype (name : string) : option string :=
  if bool_decide (name = "__proto__") then Some "[object Object]"
  else if bool_decide (name = "constructor")
  then Some "function Object() { [native code] }"
  else if bool_decide
            (name ∈ ["hasOwnProperty"; "isPrototypeOf";
                     "propertyIsEnumerable"; "toLocaleString"; "toString";
                     "valueOf"; "__defineGetter__"; "__defineSetter__";
                     "__lookupGetter__"; "__lookupSetter__"])
       then Some ("function " +:+ name +:+ "() { [native code] }")
       else None.

Definition sampleWorld : World :=
  mkWorld (Some "s3cret") (Some "hf_token") eq_refl "https://project.supabase.co"
    "/tmp" "/app" "AbC123"
    (fun _ text => TtsStream ["ID3"; text] None)
    (fun n _ => if (n =? 1)%nat then FetchResponse 503 "loading"
                else FetchResponse 200 "PNG")
    (fun _ _ => ProbeMetadata (Some (JsNumber 2.5)))
    (fun _ images audios =>
       match images, audios with
       | Some _, Some _ => EncodeEnd "MP4"
       | _, _ => EncodeError (Error "ffmpeg exited with code 1")
       end)
    (fun _ _ => None)
    sampleNumberToString (fun _ _ => 0) sampleObjectPrototype.

Definition sampleRequest (auth : option string) (id : option NoteId)
    (text subject : option string) : Request :=
  mkRequest auth (mkBody id text subject).

(** The truthiness property of the field check as stated without regard
    to the Authorization header, for one request: a falsy field gets 400
    and starts no run. *)
Definition falsyFieldProperty (w : World) (req : Request) (m : Machine) : Prop :=
  presentButFalsy (reqBody req) ->
  run (generateVideoHandler w req) m = (Ok missingParameters, m).




(** The sample world with narrations for which the inspection tool
    prints [N/A] as the duration. *)
Definition unknownDurationWorld : World :=
  mkWorld (Some "s3cret") (Some "hf_token") eq_refl "https://project.supabase.co"
    "/tmp" "/app" "AbC123"
    (fun _ text => TtsStream ["ID3"; text] None)
    (fun _ _ => FetchResponse 200 "PNG")
    (fun _ _ => ProbeMetadata (Some (JsString "N/A")))
    (fun _ _ _ => EncodeEnd "MP4")
    (fun _ _ => None)
    sampleNumberToString (fun _ _ => 0) sampleObjectPrototype.

(** The sample world with a speech service that rejects the API key. *)
Definition rejectingWorld : World :=
  mkWorld (Some "s3cret") (Some "hf_token") eq_refl "https://project.supabase.co"
    "/tmp" "/app" "AbC123"
    (fun _ _ => TtsRejected (mkError "Status code: 401" (Some 401)))
    (fun _ _ => FetchResponse 200 "PNG")
    (fun _ _ => ProbeMetadata (Some (JsNumber 2.5)))
    (fun _ _ _ => EncodeEnd "MP4")
    (fun _ _ => None)
    sampleNumberToString (fun _ _ => 0) sampleObjectPrototype.

(** The sample world with an image service that stays busy. *)
Definition busyWorld : World :=
  mkWorld (Some "s3cret") (Some "hf_token") eq_refl "https://project.supabase.co"
    "/tmp" "/app" "AbC123"
    (fun _ text => TtsStream ["ID3"; text] None)
    (fun _ _ => FetchResponse 503 "loading")
    (fun _ _ => ProbeMetadata (Some (JsNumber 2.5)))
    (fun _ _ _ => EncodeEnd "MP4")
    (fun _ _ => None)
    sampleNumberToString (fun _ _ => 0) sampleObjectPrototype.

(** ** Relations between the machine before and after a computation *)

(** Every run of [c] relates the machine it starts on to the machine it
    ends on by [R]. *)
Definition keeps (R : Machine -> Machine -> Prop) {A : Type} (c : M A) : Prop :=
  forall m r m', c m = (r, m') -> R m m'.

(** The storage service holds what it held. *)
Definition sameStorage (m m' : Machine) : Prop := storage m' = storage m.

(** Files outside [dir] and the set of directories are as they were. *)
Definition touchesOnly (dir : string) (m m' : Machine) : Prop :=
  (forall p, underDir dir p = false -> files m' !! p = files m !! p)
  /\ dirs m' = dirs m.

(** A computation makes at most [k] requests to external services. *)
Definition atMost (k : nat) {A : Type} (c : M A) : Prop :=
  forall m r m', c m = (r, m') -> calls m <= calls m' /\ calls m' <= calls m + k.



(** The speech SDK sends the request of a call again at most [k]
    times. *)
Definition resendsAtMost (w : World) (k : nat) : Prop :=
  forall n text, speechResends w n text <= k.

(** The sample world with a speech SDK that has to send every request
    three times, and an image service that answers at once. *)
Definition resendingWorld : World :=
  mkWorld (Some "s3cret") (Some "hf_token") eq_refl "https://project.supabase.co"
    "/tmp" "/app" "AbC123"
    (fun _ text => TtsStream ["ID3"; text] None)
    (fun _ _ => FetchResponse 200 "PNG")
    (fun _ _ => ProbeMetadata (Some (JsNumber 2.5)))
    (fun _ _ _ => EncodeEnd "MP4")
    (fun _ _ => None)
    sampleNumberToString (fun _ _ => 2) sampleObjectPrototype.

(** ** Worlds in which the services work *)

(** The image service answers the request made at call [n] with a
    success status, at once or after one 503. *)
Definition imageAvailable (w : World) (n : nat) (prompt : string) : Prop :=
  (exists st b, fetchImage w n prompt = FetchResponse st b
                /\ ok (mkResponse st b) = true)
  \/ (exists b1 st2 b2,
        fetchImage w n prompt = FetchResponse 503 b1
        /\ fetchImage w (S n) prompt = FetchResponse st2 b2
        /\ ok (mkResponse st2 b2) = true).

(** Speech comes back non-empty, images are available, the probe and
    the encoder do not fail, the encoder's output is not empty, and the
    storage service accepts uploads. *)
Record healthy (w : World) : Prop := mkHealthy {
  speech_ok : forall n text, exists chunks,
      textToSpeech w n text = TtsStream chunks None
      /\ String.concat EmptyString chunks <> EmptyString;
  image_ok : forall n prompt, imageAvailable w n prompt;
  probe_ok : forall n path, exists d, ffprobe w n path = ProbeMetadata d;
  encode_ok : forall n images audios, exists out,
      ffmpeg w n (Some images) (Some audios) = EncodeEnd out
      /\ out <> EmptyString;
  storage_ok : forall n key, storageFailure w n key = None
}.


(** The sample world with narrations whose duration cannot be measured. *)
Definition silentWorld : World :=
  mkWorld (Some "s3cret") (Some "hf_token") eq_refl "https://project.supabase.co"
    "/tmp" "/app" "AbC123"
    (fun _ text => TtsStream ["ID3"; text] None)
    (fun _ _ => FetchResponse 200 "PNG")
    (fun _ _ => ProbeMetadata None)
    (fun _ _ _ => EncodeEnd "MP4")
    (fun _ _ => None)
    sampleNumberToString (fun _ _ => 0) sampleObjectPrototype.


(** The sample world without a configured request secret. *)
Definition unsecuredWorld : World :=
  mkWorld None (Some "hf_token") eq_refl "https://project.supabase.co"
    "/tmp" "/app" "AbC123"
    (fun _ text => TtsStream ["ID3"; text] None)
    (fun _ _ => FetchResponse 200 "PNG")
    (fun _ _ => ProbeMetadata (Some (JsNumber 2.5)))
    (fun _ _ _ => EncodeEnd "MP4")
    (fun _ _ => None)
    sampleNumberToString (fun _ _ => 0) sampleObjectPrototype.


(** ** The earlier agent ([generateVideoFromNote])

    It differs from [generateVideoAndUpload] in four places: the speech
    block writes the buffer without looking at it and rethrows errors as
    they are; the duration comes from the subprocess prober and must be
    positive; the video is uploaded by the agent itself under a key made
    from the clock; an upload error is rethrown as it is.  The image
    block, the manifests and the encoder call are the same. *)

(** What the earlier agent needs beside the services of a [World]: the
    exit code and output of the inspection subprocess, the builtin
    [parseFloat], and the clock read by [Date.now()]. *)
Record EarlierWorld := mkEarlier {
  base : World;
  spawnProbe : nat -> string -> option Z * list string;
  parseFloat : string -> float;
  now : nat -> Z
}.

Module Earlier.

(** The audio block: [textToSpeech.convert], the chunks joined and
    written, [catch (error) { throw error }]. *)
Definition sceneAudio (w : World) (tempDir : string) (i : nat)
    (sceneText : string) : M string :=
  let audioPath := pathJoin tempDir ("scene_" +:+ Str.ofNat i +:+ ".mp3") in
  tryCatch
    (chunks ← convertAsStream w sceneText;
     writeFile audioPath (String.concat EmptyString chunks))
    (fun error => throw error);;
  mret audioPath.

(** [spawn(ffprobePath.path, [...])] up to its [close] event. *)
Definition spawnFfprobe (ew : EarlierWorld) (filePath : string)
    : M (option Z * list string) :=
  fun m => (Ok (spawnProbe ew (calls m) filePath), tick (emit (EProbe filePath) m)).

(** [getAudioDuration(filePath)] as a step of the agent. *)
Definition getAudioDuration (ew : EarlierWorld) (filePath : string) : M float :=
  closed ← spawnFfprobe ew filePath;
  match Legacy.getAudioDuration (parseFloat ew) closed.1 closed.2 with
  | Ok d => mret d
  | Throw e => throw e
  end.

(** The scene loop, with [if (duration <= 0) throw ...]. *)
Fixpoint sceneLoop (ew : EarlierWorld) (tempDir subjectName : string) (i : nat)
    (rest : list string) (sceneAssets : list SceneAsset) : M (list SceneAsset) :=
  match rest with
  | [] => mret sceneAssets
  | scene :: rest' =>
      let sceneText := Str.trim scene in
      audio ← sceneAudio (base ew) tempDir i sceneText;
      image ← sceneImage (base ew) tempDir i sceneText subjectName;
      d ← getAudioDuration ew audio;
      if PrimFloat.leb d 0
      then throw (Error ("Audio for scene " +:+ Str.ofNat (i + 1)
                         +:+ " has zero duration."))
      else sceneLoop ew tempDir subjectName (S i) rest'
             (sceneAssets ++ [mkAsset audio image (JsNumber d)])
  end.

(** [`video_${Date.now()}.mp4`] *)
Definition fileNameAt (t : Z) : string := "video_" +:+ Str.ofZ t +:+ ".mp4".

(** The upload at the end of the [try] block. *)
Definition uploadVideo (ew : EarlierWorld) (videoBuffer : string) : M string :=
  fun m =>
    let fileName := fileNameAt (now ew (calls m)) in
    (uploadError ← storageUpload (base ew) "videos" fileName videoBuffer true;
     match uploadError with
     | Some e => throw e
     | None => mret (getPublicUrl (base ew) "videos" fileName)
     end) m.

(** The body of the [try] block of [generateVideoFromNote]. *)
Definition generateInTempDir (ew : EarlierWorld) (tempDir : string)
    (noteText subjectName : string) : M string :=
  let scenes := scenes noteText in
  if (List.length scenes =? 0)%nat
  then throw (Error "Could not break note into scenes.")
  else
    sceneAssets ← sceneLoop ew tempDir subjectName 0 scenes [];
    let finalVideoPath := pathJoin tempDir "final_video.mp4" in
    let imageListPath := pathJoin tempDir "imagelist.txt" in
    writeFile imageListPath (imageListContent (base ew) sceneAssets);;
    let audioListPath := pathJoin tempDir "audiolist.txt" in
    writeFile audioListPath (audioListContent (base ew) sceneAssets);;
    encode (base ew) imageListPath audioListPath finalVideoPath;;
    videoBuffer ← readFile finalVideoPath;
    if (String.length videoBuffer =? 0)%nat
    then throw (Error "FFmpeg produced an empty video file.")
    else uploadVideo ew videoBuffer.

(** [generateVideoFromNote(noteText, subjectName)] *)
Definition generateVideoFromNote (ew : EarlierWorld)
    (noteText subjectName : string) : M string :=
  tempDir ← mkdtemp (base ew) (pathJoin (tmpdir (base ew)) "ai-video-");
  tryFinally
    (generateInTempDir ew tempDir noteText subjectName)
    (rm tempDir).

End Earlier.

(** The sample world for the earlier agent: the subprocess prober
    reports [N/A], which does not parse, at 1700000000000 ms. *)
Definition earlierSample : EarlierWorld :=
  mkEarlier silentWorld (fun _ _ => (Some 0%Z, ["N/A"]))
    (fun _ => PrimFloat.nan) (fun _ => 1700000000000%Z).

(** The same with a prober that reports 2.5 seconds. *)
Definition earlierWorking : EarlierWorld :=
  mkEarlier silentWorld (fun _ _ => (Some 0%Z, ["2.500000"]))
    (fun _ => 2.5%float) (fun _ => 1700000000000%Z).

(** The sample world with a speech service that streams nothing. *)
Definition muteWorld : World :=
  mkWorld (Some "s3cret") (Some "hf_token") eq_refl "https://project.supabase.co"
    "/tmp" "/app" "AbC123"
    (fun _ _ => TtsStream [] None)
    (fun _ _ => FetchResponse 200 "PNG")
    (fun _ _ => ProbeMetadata (Some (JsNumber 2.5)))
    (fun _ _ _ => EncodeEnd "MP4")
    (fun _ _ => None)
    sampleNumberToString (fun _ _ => 0) sampleObjectPrototype.


(** The subprocess prober always ends with code 0 and reports something
    that is not a number, or a number that is not positive. *)
Definition reportsUnusableDuration (ew : EarlierWorld) : Prop :=
  forall n p,
    (spawnProbe ew n p).1 = Some 0%Z
    /\ (PrimFloat.is_nan
          (parseFloat ew
             (Str.trim (String.concat EmptyString (spawnProbe ew n p).2))) = true
        \/ PrimFloat.leb
             (parseFloat ew
                (Str.trim (String.concat EmptyString (spawnProbe ew n p).2))) 0
           = true).


(** ** The speech block that posts the request itself

    In the version of [generateVideoAndUpload] that calls the speech
    service through [axios], the audio block reads the API key, posts
    the request with [responseType: 'stream'], joins the chunks, rejects
    an empty buffer, and replaces every error by one of its own. *)

Module Axios.

(** [axios.post(ttsUrl, { text, model_id, ... }, { responseType: 'stream' })]
    followed by the loop over the stream: one request, answered as the
    speech service answers. *)
Definition post (w : World) (text : string) : M (list string) :=
  fun m =>
    let m1 := tick (emit (ETextToSpeech voiceId modelId text) m) in
    match textToSpeech w (calls m) text with
    | TtsRejected e => (Throw e, m1)
    | TtsStream chunks (Some e) => (Throw e, m1)
    | TtsStream chunks None => (Ok chunks, m1)
    end.

(** The audio block; [apiKey] is [process.env.ELEVENLABS_API_KEY].  The
    handler reads the body of a rejected request's response for the log
    only; that reading is taken to reach the end of the body. *)
Definition sceneAudio (apiKey : option string) (w : World) (tempDir : string)
    (i : nat) (sceneText : string) : M string :=
  let audioPath := pathJoin tempDir ("scene_" +:+ Str.ofNat i +:+ ".mp3") in
  tryCatch
    (if notString apiKey
     then throw (Error "FATAL: ELEVENLABS_API_KEY is not defined in the environment.")
     else
       chunks ← post w sceneText;
       let audioBuffer := String.concat EmptyString chunks in
       if (String.length audioBuffer =? 0)%nat
       then throw (Error "ElevenLabs returned an empty audio stream.")
       else writeFile audioPath audioBuffer)
    (fun error => throw (Error "Failed during audio generation step."));;
  mret audioPath.

End Axios.

(** ** The earlier gateway, which uploads the video itself

    Its agent returns the bytes of the video; the agent is a parameter
    here. *)

Module EarlierGateway.

Definition generateVideoHandler
    (agent : NoteId -> string -> string -> M string)
    (w : World) (req : Request) : M Response :=
  tryCatch
    (let authHeader := authorization req in
     if negb (bool_decide (authHeader = Some (bearer (WORKER_SECRET_KEY w))))
     then mret unauthorized
     else
       let b := reqBody req in
       if notNoteId (noteId b) || notString (noteText b) || notString (subjectName b)
       then mret missingParameters
       else
         match noteId b, noteText b, subjectName b with
         | Some id, Some text, Some subject =>
             videoBuffer ← agent id text subject;
             let filePath := "note-videos/" +:+ noteIdToString w id +:+ ".mp4" in
             uploadError ← storageUpload w "videos" filePath videoBuffer true;
             match uploadError with
             | Some e => throw e
             | None => mret (complete (getPublicUrl w "videos" filePath))
             end
         | _, _, _ => mret missingParameters
         end)
    (fun error => mret (failed error)).

End EarlierGateway.



(** * Properties *)

(** ** Strings *)

Module StrFacts.

Lemma append_cons (c : ascii) (a b : string) :
  String c a +:+ b = String c (a +:+ b).
Proof. reflexivity. Qed.

Lemma append_nil_l (s : string) : EmptyString +:+ s = s.
Proof. reflexivity. Qed.

Lemma append_nil_r (s : string) : s +:+ EmptyString = s.
Proof.
  induction s as [|c s IH]; [reflexivity|].
  now rewrite append_cons, IH.
Qed.

Lemma append_assoc (a b c : string) : (a +:+ b) +:+ c = a +:+ (b +:+ c).
Proof.
  induction a as [|x a IH]; [reflexivity|].
  now rewrite !append_cons, IH.
Qed.

Lemma length_append (a b : string) :
  String.length (a +:+ b) = String.length a + String.length b.
Proof.
  induction a as [|x a IH]; [reflexivity|].
  rewrite append_cons; simpl; now rewrite IH.
Qed.

Lemma take_drop (p : ascii -> bool) (s : string) :
  Str.takeWhile p s +:+ Str.dropWhile p s = s.
Proof.
  induction s as [|c s IH]; simpl; [reflexivity|].
  destruct (p c); [|reflexivity].
  now rewrite append_cons, IH.
Qed.

Lemma length_dropWhile (p : ascii -> bool) (s : string) :
  String.length (Str.dropWhile p s) <= String.length s.
Proof.
  induction s as [|c s IH]; simpl; [lia|].
  destruct (p c); simpl; lia.
Qed.

Lemma dropWhile_head (p : ascii -> bool) (s : string) (c : ascii) (r : string) :
  Str.dropWhile p s = String c r -> p c = false.
Proof.
  induction s as [|d s IH]; simpl; [discriminate|].
  destruct (p d) eqn:E; [exact IH|].
  intros H; injection H as -> _; exact E.
Qed.

(** Cutting a string after the part that precedes a known suffix. *)
Lemma substring_prefix (a r : string) :
  substring 0 (String.length (a +:+ r) - String.length r) (a +:+ r) = a.
Proof.
  rewrite length_append.
  replace (String.length a + String.length r - String.length r)
    with (String.length a) by lia.
  induction a as [|x a IH].
  - rewrite append_nil_l. destruct r; reflexivity.
  - rewrite append_cons; simpl. now rewrite IH.
Qed.

End StrFacts.

(** ** The scene splitter *)

Module Splitter.

Import StrFacts.

Example scenes_three : scenes "Cells divide. They grow!  Why?" =
  ["Cells divide."; " They grow!"; "  Why?"].
Proof. reflexivity. Qed.

Example sceneTexts_tail_dropped :
  sceneTexts "Cells divide. They grow!  Why? bye" =
  ["Cells divide."; "They grow!"; "Why?"].
Proof. reflexivity. Qed.

Example scenes_leading_run : scenes "..a.?b" = ["a.?"].
Proof. reflexivity. Qed.

Example scenes_only_terminators : scenes "?!." = [].
Proof. reflexivity. Qed.

(** A greedy class followed by nothing consumes the whole run. *)
Lemma star_done (p : ascii -> bool) (s : string) :
  Regex.star p Some s = Some (Str.dropWhile p s).
Proof.
  induction s as [|c s IH]; simpl; [reflexivity|].
  destruct (p c); [now rewrite IH | reflexivity].
Qed.

(** Giving characters back never helps when the next class excludes
    them: the greedy position decides. *)
Lemma star_then_plus (p q : ascii -> bool) (s : string) :
  (forall c, p c = true -> q c = false) ->
  Regex.star p (Regex.plus q Some) s = Regex.plus q Some (Str.dropWhile p s).
Proof.
  intros Hpq. induction s as [|c s IH]; simpl; [reflexivity|].
  destruct (p c) eqn:E; [|reflexivity].
  rewrite IH. destruct (Regex.plus q Some (Str.dropWhile p s)); [reflexivity|].
  now rewrite (Hpq c E).
Qed.

Lemma not_is_terminator (c : ascii) :
  Regex.notTerminator c = true -> Regex.isTerminator c = false.
Proof. unfold Regex.notTerminator. now destruct (Regex.isTerminator c). Qed.

(** What one attempt of the expression returns. *)
Lemma sentence_eq (c : ascii) (s : string) :
  Regex.sentence (String c s) =
  if Regex.notTerminator c then
    match Str.dropWhile Regex.notTerminator s with
    | String _ r => Some (Str.dropWhile Regex.isTerminator r)
    | EmptyString => None
    end
  else None.
Proof.
  unfold Regex.sentence. simpl.
  destruct (Regex.notTerminator c); [|reflexivity].
  rewrite star_then_plus by exact not_is_terminator.
  destruct (Str.dropWhile Regex.notTerminator s) as [|t r] eqn:E; [reflexivity|].
  simpl. apply dropWhile_head in E. unfold Regex.notTerminator in E.
  destruct (Regex.isTerminator t); [|discriminate].
  apply star_done.
Qed.

Lemma upTo_none (s : string) :
  containsTerminator s = false -> upToLastTerminator s = EmptyString.
Proof. destruct s as [|c s]; simpl; [reflexivity|]. now intros ->. Qed.

Lemma upTo_nonempty (s : string) :
  containsTerminator s = true -> upToLastTerminator s <> EmptyString.
Proof. destruct s as [|c s]; simpl; [discriminate|]. now intros ->. Qed.

Lemma contains_append (a b : string) :
  containsTerminator (a +:+ b) = containsTerminator a || containsTerminator b.
Proof.
  induction a as [|x a IH]; [reflexivity|].
  rewrite append_cons; simpl. rewrite IH. now rewrite orb_assoc.
Qed.

Lemma contains_takeWhile_not (s : string) :
  containsTerminator (Str.takeWhile Regex.notTerminator s) = false.
Proof.
  induction s as [|c s IH]; simpl; [reflexivity|].
  unfold Regex.notTerminator at 1.
  destruct (Regex.isTerminator c) eqn:E; simpl; [reflexivity|].
  now rewrite E, IH.
Qed.

(** A part that is followed by a terminator is kept whole. *)
Lemma upTo_append (a b : string) :
  containsTerminator b = true ->
  upToLastTerminator (a +:+ b) = a +:+ upToLastTerminator b.
Proof.
  intros Hb. induction a as [|x a IH]; [reflexivity|].
  rewrite !append_cons. simpl. rewrite contains_append, Hb, orb_true_r, orb_true_r.
  now rewrite IH.
Qed.

Lemma upTo_terminators (a b : string) :
  upToLastTerminator (Str.takeWhile Regex.isTerminator a +:+ b) =
  Str.takeWhile Regex.isTerminator a +:+ upToLastTerminator b.
Proof.
  induction a as [|x a IH]; simpl; [reflexivity|].
  destruct (Regex.isTerminator x) eqn:E; [|reflexivity].
  rewrite !append_cons. simpl. rewrite E. simpl. now rewrite IH.
Qed.

(** Dropping the leading terminators commutes with cutting after the
    last one. *)
Lemma drop_upTo (s : string) :
  dropLeadingTerminators (upToLastTerminator s) =
  upToLastTerminator (dropLeadingTerminators s).
Proof.
  unfold dropLeadingTerminators.
  induction s as [|c s IH]; [reflexivity|].
  cbn [Str.dropWhile]. destruct (Regex.isTerminator c) eqn:E.
  - rewrite <- IH. simpl. rewrite E. simpl. now rewrite E.
  - simpl. rewrite E. simpl.
    destruct (containsTerminator s); simpl; [now rewrite E | reflexivity].
Qed.

Lemma dropWhile_idem (p : ascii -> bool) (s : string) :
  Str.dropWhile p (Str.dropWhile p s) = Str.dropWhile p s.
Proof.
  induction s as [|c s IH]; simpl; [reflexivity|].
  destruct (p c) eqn:E; [exact IH|]. simpl. now rewrite E.
Qed.

Lemma contains_dropWhile (p : ascii -> bool) (s : string) :
  containsTerminator s = false ->
  containsTerminator (Str.dropWhile p s) = false.
Proof.
  induction s as [|c s IH]; simpl; [reflexivity|].
  intros H. apply orb_false_elim in H as [Hc Hs].
  destruct (p c); [now apply IH|]. simpl. now rewrite Hc, Hs.
Qed.

Lemma concat_cons (x : string) (xs : list string) :
  String.concat EmptyString (x :: xs) = x +:+ String.concat EmptyString xs.
Proof.
  destruct xs as [|y ys]; simpl; [now rewrite append_nil_r | reflexivity].
Qed.

(** The matches, put end to end, are the text from its first
    non-terminator up to its last terminator. *)
Lemma scan_concat (fuel : nat) (s : string) :
  String.length s < fuel ->
  String.concat EmptyString (Regex.scan fuel s) =
  upToLastTerminator (dropLeadingTerminators s).
Proof.
  revert s. induction fuel as [|fuel IH]; intros s Hlen; [lia|].
  destruct s as [|c s]; [reflexivity|].
  cbn [Regex.scan]. rewrite sentence_eq.
  unfold dropLeadingTerminators in *. cbn [Str.dropWhile].
  simpl in Hlen.
  destruct (Regex.notTerminator c) eqn:Ec.
  - rewrite (not_is_terminator c Ec).
    pose proof (take_drop Regex.notTerminator s) as Hs.
    destruct (Str.dropWhile Regex.notTerminator s) as [|t r] eqn:Er.
    + assert (Hno : containsTerminator s = false).
      { rewrite <- Hs, append_nil_r. apply contains_takeWhile_not. }
      rewrite IH by lia.
      rewrite (upTo_none (Str.dropWhile _ s)) by now apply contains_dropWhile.
      symmetry. apply upTo_none. simpl.
      now rewrite (not_is_terminator c Ec), Hno.
    + assert (Et : Regex.isTerminator t = true).
      { apply dropWhile_head in Er. unfold Regex.notTerminator in Er.
        now destruct (Regex.isTerminator t). }
      set (rest := Str.dropWhile Regex.isTerminator r).
      set (a := String c (Str.takeWhile Regex.notTerminator s)
                +:+ String t (Str.takeWhile Regex.isTerminator r)).
      assert (Hsplit : String c s = a +:+ rest).
      { unfold a, rest. rewrite append_assoc, !append_cons.
        now rewrite (take_drop Regex.isTerminator r), Hs. }
      rewrite Hsplit. rewrite substring_prefix, concat_cons.
      assert (Hr : String.length rest < fuel).
      { pose proof (length_dropWhile Regex.isTerminator r).
        assert (String.length s = String.length
                  (Str.takeWhile Regex.notTerminator s +:+ String t r))
          by now rewrite Hs.
        rewrite length_append in *. simpl in *. unfold rest. lia. }
      rewrite (IH rest Hr). unfold rest. rewrite dropWhile_idem.
      unfold a. rewrite !append_assoc, !(append_cons t).
      rewrite upTo_append by (simpl; now rewrite Et).
      cbn [upToLastTerminator containsTerminator]. rewrite Et. simpl.
      now rewrite upTo_terminators.
  - unfold Regex.notTerminator in Ec.
    destruct (Regex.isTerminator c); [|discriminate].
    apply IH. lia.
Qed.

(** The same for [scenes], with the content written as in the claim. *)
Lemma scenes_concat (noteText : string) :
  String.concat EmptyString (scenes noteText) =
  dropLeadingTerminators (upToLastTerminator noteText).
Proof.
  rewrite drop_upTo, <- (scan_concat (S (String.length noteText))) by lia.
  unfold scenes, Regex.matchAll.
  now destruct (Regex.scan (S (String.length noteText)) noteText).
Qed.

(** A match is never empty: what is left after it is shorter. *)
Lemma sentence_shrinks (s rest : string) :
  Regex.sentence s = Some rest -> String.length rest < String.length s.
Proof.
  destruct s as [|c s]; [discriminate|]. rewrite sentence_eq.
  destruct (Regex.notTerminator c); [|discriminate].
  pose proof (take_drop Regex.notTerminator s) as Hs.
  destruct (Str.dropWhile Regex.notTerminator s) as [|t r]; [discriminate|].
  intros H; injection H as <-.
  pose proof (length_dropWhile Regex.isTerminator r).
  apply (f_equal String.length) in Hs. rewrite length_append in Hs.
  simpl in *. lia.
Qed.

(** The scan never runs out of fuel: any fuel above the length of the
    text gives the same matches. *)
Lemma scan_fuel (fuel1 fuel2 : nat) (s : string) :
  String.length s < fuel1 -> String.length s < fuel2 ->
  Regex.scan fuel1 s = Regex.scan fuel2 s.
Proof.
  revert fuel2 s. induction fuel1 as [|fuel1 IH]; intros fuel2 s H1 H2; [lia|].
  destruct fuel2 as [|fuel2]; [lia|].
  destruct s as [|c s]; [reflexivity|].
  cbn [Regex.scan]. simpl in H1, H2.
  destruct (Regex.sentence (String c s)) as [rest|] eqn:E.
  - apply sentence_shrinks in E. simpl in E.
    f_equal. apply IH; lia.
  - apply IH; lia.
Qed.

(** Without a terminator after the leading run of terminators there is
    no match at all. *)
Lemma scan_nil (fuel : nat) (s : string) :
  containsTerminator (dropLeadingTerminators s) = false ->
  Regex.scan fuel s = [].
Proof.
  unfold dropLeadingTerminators.
  revert s. induction fuel as [|fuel IH]; intros s H; [reflexivity|].
  destruct s as [|c s]; [reflexivity|].
  cbn [Regex.scan]. rewrite sentence_eq.
  cbn [Str.dropWhile] in H.
  destruct (Regex.isTerminator c) eqn:Ec.
  - unfold Regex.notTerminator. rewrite Ec. simpl. now apply IH.
  - unfold Regex.notTerminator at 1. rewrite Ec. simpl.
    simpl in H. rewrite Ec in H. simpl in H.
    pose proof (take_drop Regex.notTerminator s) as Hs.
    destruct (Str.dropWhile Regex.notTerminator s) as [|t r] eqn:Er.
    + apply IH. now apply contains_dropWhile.
    + exfalso. apply dropWhile_head in Er. unfold Regex.notTerminator in Er.
      rewrite <- Hs, contains_append in H. simpl in H.
      destruct (Regex.isTerminator t); [|discriminate].
      rewrite orb_true_r in H. discriminate.
Qed.

Lemma scenes_nil (noteText : string) :
  containsTerminator (dropLeadingTerminators noteText) = false ->
  scenes noteText = [].
Proof.
  intros H. unfold scenes, Regex.matchAll. now rewrite scan_nil.
Qed.

(** A text without any terminator has no scene. *)
Lemma scenes_nil_no_terminator (noteText : string) :
  containsTerminator noteText = false -> scenes noteText = [].
Proof. intros H. apply scenes_nil. now apply contains_dropWhile. Qed.

Lemma scenes_nonempty (noteText : string) :
  containsTerminator (dropLeadingTerminators noteText) = true ->
  scenes noteText <> [].
Proof.
  intros H Hnil. pose proof (scenes_concat noteText) as Hc.
  rewrite Hnil, drop_upTo in Hc. simpl in Hc.
  now apply (upTo_nonempty _ H).
Qed.

(** C1, as the specification states it, fails: a text made of one
    terminator contains a terminator and has no scene; and where scenes
    exist, terminators at the start of the text belong to none of them. *)
Lemma C1_counterexample :
  (containsTerminator "." = true /\ sceneTexts "." = [])
  /\ (containsTerminator "?a." = true /\ sceneTexts "?a." = ["a."]
      /\ upToLastTerminator "?a." = "?a.")
  /\ ~ splitterProperty ".".
Proof.
  repeat split; try reflexivity.
  intros H. destruct (H eq_refl) as [Hne _]. now apply Hne.
Qed.

(** C1 (amended): for every input text in which a sentence terminator
    comes after at least one non-terminator character, the scene
    splitter produces a non-empty ordered sequence of scenes; the
    matches, of which the scenes are the trimmed forms, concatenate to
    the input up to and including its last terminator, without the
    terminators the input starts with. *)
Theorem C1_splitter_reconstructs (noteText : string) :
  containsTerminator (dropLeadingTerminators noteText) = true ->
  sceneTexts noteText <> []
  /\ sceneTexts noteText = map Str.trim (scenes noteText)
  /\ String.concat EmptyString (scenes noteText) =
       dropLeadingTerminators (upToLastTerminator noteText)
  /\ reconstructs (sceneTexts noteText)
       (dropLeadingTerminators (upToLastTerminator noteText)).
Proof.
  intros H. split; [|split; [|split]].
  - unfold sceneTexts. intros Hnil. apply map_eq_nil in Hnil.
    now apply (scenes_nonempty _ H).
  - reflexivity.
  - apply scenes_concat.
  - exists (scenes noteText). split; [reflexivity | apply scenes_concat].
Qed.

Lemma C1_splitter_witness :
  sceneTexts ".. Cells divide. They grow!  Why? bye" =
    ["Cells divide."; "They grow!"; "Why?"]
  /\ sceneTexts ".. Cells divide. They grow!  Why? bye" <> []
  /\ reconstructs (sceneTexts ".. Cells divide. They grow!  Why? bye")
       " Cells divide. They grow!  Why?".
Proof.
  split; [reflexivity|].
  destruct (C1_splitter_reconstructs ".. Cells divide. They grow!  Why? bye"
              eq_refl) as (Hne & _ & _ & Hrec).
  split; [exact Hne | exact Hrec].
Defined.

End Splitter.

(** ** The monad and the primitive operations *)

Ltac unfold_monad :=
  unfold run, mbind, M_bind, mret, M_ret, throw, tryCatch, tryFinally in *.

(** Every operation, and every way of putting operations together,
    only adds to the trace. *)
Module Mono.

Lemma continues_refl (m : Machine) : continues m m [].
Proof. unfold continues. now rewrite app_nil_r. Qed.

Lemma continues_trans (m1 m2 m3 : Machine) (e1 e2 : list Event) :
  continues m1 m2 e1 -> continues m2 m3 e2 -> continues m1 m3 (e1 ++ e2).
Proof. unfold continues. intros H1 H2. now rewrite H2, H1, app_assoc. Qed.

Lemma ret {A : Type} (a : A) : monotone (mret a).
Proof.
  intros m r m' H. unfold_monad. injection H as <- <-.
  exists []. apply continues_refl.
Qed.

Lemma throw_ {A : Type} (e : JsError) : monotone (@throw A e).
Proof.
  intros m r m' H. unfold_monad. injection H as <- <-.
  exists []. apply continues_refl.
Qed.

Lemma bind {A B : Type} (c : M A) (f : A -> M B) :
  monotone c -> (forall a, monotone (f a)) -> monotone (c ≫= f).
Proof.
  intros Hc Hf m r m' H. unfold_monad.
  destruct (c m) as [[a|e] m1] eqn:Ec.
  - destruct (Hc _ _ _ Ec) as [e1 H1]. destruct (Hf a _ _ _ H) as [e2 H2].
    eexists. eapply continues_trans; eassumption.
  - injection H as <- <-. exact (Hc _ _ _ Ec).
Qed.

Lemma catch {A : Type} (c : M A) (h : JsError -> M A) :
  monotone c -> (forall e, monotone (h e)) -> monotone (tryCatch c h).
Proof.
  intros Hc Hh m r m' H. unfold_monad.
  destruct (c m) as [[a|e] m1] eqn:Ec.
  - injection H as <- <-. exact (Hc _ _ _ Ec).
  - destruct (Hc _ _ _ Ec) as [e1 H1]. destruct (Hh e _ _ _ H) as [e2 H2].
    eexists. eapply continues_trans; eassumption.
Qed.

Lemma emit_continues (e : Event) (m : Machine) : continues m (emit e m) [e].
Proof. reflexivity. Qed.

Ltac step :=
  let m := fresh "m" in let r := fresh "r" in let m' := fresh "m'" in
  let H := fresh "H" in
  intros m r m' H; unfold_monad;
  repeat match type of H with
         | context [match ?x with _ => _ end] => destruct x
         end;
  injection H as <- <-; eexists; unfold continues; simpl; reflexivity.

Lemma mkdtemp_ (w : World) (pfx : string) : monotone (mkdtemp w pfx).
Proof. unfold mkdtemp. step. Qed.

Lemma writeFile_ (path content : string) : monotone (writeFile path content).
Proof. unfold writeFile. step. Qed.

Lemma readFile_ (path : string) : monotone (readFile path).
Proof. unfold readFile. step. Qed.

Lemma rm_ (dir : string) : monotone (rm dir).
Proof. unfold rm. step. Qed.

Lemma sleep_ (ms : N) : monotone (sleep ms).
Proof. unfold sleep. step. Qed.

Lemma convertAsStream_ (w : World) (text : string) :
  monotone (convertAsStream w text).
Proof. unfold convertAsStream. step. Qed.

Lemma fetch_ (w : World) (auth prompt : string) : monotone (fetch w auth prompt).
Proof. unfold fetch. step. Qed.

Lemma ffprobeCall_ (w : World) (filePath : string) : monotone (ffprobeCall w filePath).
Proof. unfold ffprobeCall. step. Qed.

Lemma encode_ (w : World) (i a o : string) : monotone (encode w i a o).
Proof. unfold encode. step. Qed.

Lemma storageUpload_ (w : World) (b k d : string) (u : bool) :
  monotone (storageUpload w b k d u).
Proof. unfold storageUpload. step. Qed.

Ltac solve_mono :=
  repeat first
    [ apply ret | apply throw_ | apply mkdtemp_ | apply writeFile_
    | apply readFile_ | apply rm_ | apply sleep_ | apply convertAsStream_
    | apply fetch_ | apply ffprobeCall_ | apply encode_ | apply storageUpload_
    | apply bind; [|intros ?] | apply catch; [|intros ?]
    | match goal with
      | |- monotone (if ?b then _ else _) => destruct b
      | |- monotone (match ?x with _ => _ end) => destruct x
      end ].

Lemma sceneAudio_ (w : World) (tempDir : string) (i : nat) (text : string) :
  monotone (sceneAudio w tempDir i text).
Proof. unfold sceneAudio. solve_mono. Qed.

Lemma sceneImage_ (w : World) (tempDir : string) (i : nat) (text subject : string) :
  monotone (sceneImage w tempDir i text subject).
Proof. unfold sceneImage. solve_mono. Qed.

Lemma getAudioDuration_ (w : World) (filePath : string) :
  monotone (getAudioDuration w filePath).
Proof. unfold getAudioDuration. solve_mono. Qed.

Lemma sceneLoop_ (w : World) (tempDir subject : string) (rest : list string) :
  forall i acc, monotone (sceneLoop w tempDir subject i rest acc).
Proof.
  induction rest as [|scene rest IH]; intros i acc; simpl; [apply ret|].
  apply bind; [apply sceneAudio_|intros ?].
  apply bind; [apply sceneImage_|intros ?].
  apply bind; [apply getAudioDuration_|intros ?].
  apply IH.
Qed.

Lemma uploadVideoToSupabase_ (w : World) (id : NoteId) (video : string) :
  monotone (uploadVideoToSupabase w id video).
Proof. unfold uploadVideoToSupabase. solve_mono. Qed.

(** What follows the scene loop in the [try] block. *)
Lemma assemble_ (w : World) (tempDir : string) (id : NoteId) :
  monotone
    (encode w (pathJoin tempDir "imagelist.txt") (pathJoin tempDir "audiolist.txt")
       (pathJoin tempDir "final_video.mp4");;
     videoBuffer ← readFile (pathJoin tempDir "final_video.mp4");
     if (String.length videoBuffer =? 0)%nat
     then throw (Error "FFmpeg produced an empty video file.")
     else uploadVideoToSupabase w id videoBuffer).
Proof.
  apply bind; [apply encode_|intros ?].
  apply bind; [apply readFile_|intros ?].
  destruct (_ =? _)%nat; [apply throw_ | apply uploadVideoToSupabase_].
Qed.

Lemma generateInTempDir_ (w : World) (tempDir : string) (id : NoteId)
    (text subject : string) :
  monotone (generateInTempDir w tempDir id text subject).
Proof.
  unfold generateInTempDir.
  destruct (_ =? _)%nat; [apply throw_|].
  apply bind; [apply sceneLoop_|intros assets].
  apply bind; [apply writeFile_|intros ?].
  apply bind; [apply writeFile_|intros ?].
  apply assemble_.
Qed.

End Mono.

(** ** The duration prober *)

Module Prober.

(** C6: both probers fail exactly when the probing step reports
    failure (the callback's error; for the earlier prober a subprocess
    exit code other than 0), with that error.  When probing succeeds, the
    earlier prober returns 0 for an output that does not parse as a
    number.  The prober of [videoAgent.ts] returns 0 for a duration that
    is missing, zero, not a number or the empty text, and any other text
    (such as [N/A]) as it is: a text, neither 0 nor an error. *)
Theorem C6_prober_outcomes (w : World) (filePath : string)
    (m : Machine) (parseFloat : string -> float) (exitCode : option Z)
    (chunks : list string) :
  ((exists e, (run (getAudioDuration w filePath) m).1 = Throw e) <->
   (exists e, ffprobe w (calls m) filePath = ProbeError e))
  /\ (forall e, ffprobe w (calls m) filePath = ProbeError e ->
        (run (getAudioDuration w filePath) m).1 = Throw e)
  /\ (ffprobe w (calls m) filePath = ProbeMetadata None ->
        (run (getAudioDuration w filePath) m).1 = Ok (JsNumber 0))
  /\ (forall d, ffprobe w (calls m) filePath = ProbeMetadata (Some (JsNumber d)) ->
        PrimFloat.is_nan d = true \/ PrimFloat.eqb d 0 = true ->
        (run (getAudioDuration w filePath) m).1 = Ok (JsNumber 0))
  /\ (forall d, ffprobe w (calls m) filePath = ProbeMetadata (Some (JsNumber d)) ->
        PrimFloat.is_nan d = false -> PrimFloat.eqb d 0 = false ->
        (run (getAudioDuration w filePath) m).1 = Ok (JsNumber d))
  /\ (ffprobe w (calls m) filePath = ProbeMetadata (Some (JsString EmptyString)) ->
        (run (getAudioDuration w filePath) m).1 = Ok (JsNumber 0))
  /\ (forall s, ffprobe w (calls m) filePath = ProbeMetadata (Some (JsString s)) ->
        s <> EmptyString ->
        (run (getAudioDuration w filePath) m).1 = Ok (JsString s)
        /\ (run (getAudioDuration w filePath) m).1 <> Ok (JsNumber 0))
  /\ ((exists e, Legacy.getAudioDuration parseFloat exitCode chunks = Throw e) <->
       exitCode <> Some 0%Z)
  /\ (exitCode <> Some 0%Z ->
        Legacy.getAudioDuration parseFloat exitCode chunks =
        Throw (Error ("FFPROBE failed with code " +:+ Legacy.codeToString exitCode)))
  /\ (exitCode = Some 0%Z ->
        PrimFloat.is_nan
          (parseFloat (Str.trim (String.concat EmptyString chunks))) = true ->
        Legacy.getAudioDuration parseFloat exitCode chunks = Ok 0%float)
  /\ (exitCode = Some 0%Z ->
        PrimFloat.is_nan
          (parseFloat (Str.trim (String.concat EmptyString chunks))) = false ->
        Legacy.getAudioDuration parseFloat exitCode chunks =
        Ok (parseFloat (Str.trim (String.concat EmptyString chunks)))).
Proof.
  unfold getAudioDuration, ffprobeCall, Legacy.getAudioDuration.
  unfold_monad. simpl.
  repeat match goal with |- _ /\ _ => split end.
  - split.
    + intros [e He]. destruct (ffprobe w (calls m) filePath); [eauto | discriminate].
    + intros [e He]. rewrite He. eauto.
  - intros e He. now rewrite He.
  - intros He. now rewrite He.
  - intros d He [Hn | Hz]; rewrite He; simpl.
    + now rewrite Hn.
    + rewrite Hz. now rewrite orb_true_r.
  - intros d He Hn Hz. rewrite He. simpl. now rewrite Hn, Hz.
  - intros He. now rewrite He.
  - intros s He Hs. rewrite He. destruct s as [|c s]; [easy|]. simpl.
    split; [reflexivity | discriminate].
  - split.
    + intros [e He] Hc. rewrite bool_decide_eq_true_2 in He by exact Hc. discriminate.
    + intros Hc. rewrite bool_decide_eq_false_2 by exact Hc. eauto.
  - intros Hc. now rewrite bool_decide_eq_false_2 by exact Hc.
  - intros Hc Hn. rewrite bool_decide_eq_true_2 by exact Hc. now rewrite Hn.
  - intros Hc Hn. rewrite bool_decide_eq_true_2 by exact Hc. now rewrite Hn.
Qed.

Lemma C6_prober_witness :
  (run (getAudioDuration unknownDurationWorld "/tmp/ai-video-AbC123/scene_0.mp3")
     freshMachine).1 = Ok (JsString "N/A")
  /\ Legacy.getAudioDuration (fun _ => PrimFloat.nan) (Some 0%Z) ["N/A"] = Ok 0%float
  /\ Legacy.getAudioDuration (fun _ => PrimFloat.nan) (Some 1%Z) ["N/A"] =
     Throw (Error "FFPROBE failed with code 1")
  /\ (run (getAudioDuration sampleWorld "/tmp/ai-video-AbC123/scene_0.mp3")
        freshMachine).1 = Ok (JsNumber 2.5).
Proof.
  destruct (C6_prober_outcomes unknownDurationWorld
              "/tmp/ai-video-AbC123/scene_0.mp3" freshMachine
              (fun _ => PrimFloat.nan) (Some 0%Z) ["N/A"])
    as (_ & _ & _ & _ & _ & _ & Htext & _ & _ & Hnan & _).
  destruct (C6_prober_outcomes sampleWorld
              "/tmp/ai-video-AbC123/scene_0.mp3" freshMachine
              (fun _ => PrimFloat.nan) (Some 1%Z) ["N/A"])
    as (_ & _ & _ & _ & Hd & _ & _ & _ & Hexit & _).
  split; [apply (Htext "N/A"); [reflexivity | discriminate]|].
  split; [apply Hnan; reflexivity|].
  split; [apply Hexit; discriminate|].
  apply (Hd 2.5%float); reflexivity.
Defined.

(** The text reaches the image list: the line of the scene reads
    [duration N/A]. *)
Example unknown_duration_in_image_list :
  imageEntry unknownDurationWorld
    (mkAsset "/tmp/ai-video-AbC123/scene_0.mp3" "/tmp/ai-video-AbC123/scene_0.png"
       (JsString "N/A"))
  = "file '/tmp/ai-video-AbC123/scene_0.png'" +:+ newline +:+ "duration N/A".
Proof. reflexivity. Qed.

End Prober.

(** ** The storage publisher *)

Module Publisher.

(** One upload with [upsert] on stores the object whatever the bucket
    held, unless the service fails for a reason of its own. *)
Lemma upload_stores (w : World) (id : NoteId) (video : string) (m : Machine) :
  storageFailure w (calls m) (videoKey w id) = None ->
  run (uploadVideoToSupabase w id video) m =
  (Ok (getPublicUrl w "videos" (videoKey w id)),
   mkMachine (files m) (dirs m) (<[("videos", videoKey w id):=video]> (storage m))
     (S (calls m)) (trace m ++ [EUpload "videos" (videoKey w id) true])).
Proof.
  intros Hf. unfold uploadVideoToSupabase, storageUpload. unfold_monad.
  fold (videoKey w id). rewrite Hf.
  now destruct (storage m !! ("videos", videoKey w id)).
Qed.

Lemma upload_fails (w : World) (id : NoteId) (video : string) (m : Machine)
    (e : JsError) :
  storageFailure w (calls m) (videoKey w id) = Some e ->
  run (uploadVideoToSupabase w id video) m =
  (Throw (Error "Failed to upload video to Supabase Storage."),
   mkMachine (files m) (dirs m) (storage m) (S (calls m))
     (trace m ++ [EUpload "videos" (videoKey w id) true])).
Proof.
  intros Hf. unfold uploadVideoToSupabase, storageUpload. unfold_monad.
  fold (videoKey w id). now rewrite Hf.
Qed.

(** The [upsert] option is what makes the difference: without it the
    service refuses a key that is taken. *)
Example upload_without_upsert_refused :
  (run (storageUpload sampleWorld "videos" "note-videos/42.mp4" "new" false)
     (mkMachine ∅ ∅ {[("videos", "note-videos/42.mp4") := "old"]} 0 [])).1 =
    Ok (Some alreadyExists)
  /\ (run (storageUpload sampleWorld "videos" "note-videos/42.mp4" "new" true)
        (mkMachine ∅ ∅ {[("videos", "note-videos/42.mp4") := "old"]} 0 [])).1 =
    Ok None.
Proof. split; vm_compute; reflexivity. Qed.

(** C9: the publisher uploads the video under the key
    [note-videos/<noteId>.mp4] of the bucket [videos], where [<noteId>]
    is the identifier as a template literal prints it (a string as it
    is, a safe integer in decimal digits, another number as the runtime
    prints it), with overwrite semantics: when the service is otherwise
    working, publishing twice with the same note id succeeds both times,
    leaves the second video at that one key (as if only it had been
    stored), and returns the public URL of the object; a failed publish
    is never caused by the object being there already. *)
Theorem C9_publish_overwrites (w : World) (id : NoteId) (video1 video2 : string)
    (m : Machine) :
  let key :=
    "note-videos/"
    +:+ match id with
        | IdString s => s
        | IdNumber n =>
            match safeInteger n with
            | Some z => Str.ofZ z
            | None => numberToString w n
            end
        end
    +:+ ".mp4" in
  (storageFailure w (calls m) key = None ->
   storageFailure w (S (calls m)) key = None ->
   exists m1 m2,
     run (uploadVideoToSupabase w id video1) m =
       (Ok (getPublicUrl w "videos" key), m1)
     /\ storage m1 !! ("videos", key) = Some video1
     /\ run (uploadVideoToSupabase w id video2) m1 =
       (Ok (getPublicUrl w "videos" key), m2)
     /\ storage m2 !! ("videos", key) = Some video2
     /\ storage m2 = <[("videos", key):=video2]> (storage m)
     /\ trace m2 = (trace m ++ [EUpload "videos" key true;
                                EUpload "videos" key true])%list)
  /\ (forall e m', run (uploadVideoToSupabase w id video1) m = (Throw e, m') ->
        storageFailure w (calls m) key <> None
        /\ e = Error "Failed to upload video to Supabase Storage."
        /\ storage m' = storage m)
  /\ getPublicUrl w "videos" key =
     encodeURI (SUPABASE_URL w +:+ "/storage/v1/object/public/videos/" +:+ key).
Proof.
  assert (Hkey : "note-videos/"
                 +:+ match id with
                     | IdString s => s
                     | IdNumber n =>
                         match safeInteger n with
                         | Some z => Str.ofZ z
                         | None => numberToString w n
                         end
                     end
                 +:+ ".mp4" = videoKey w id).
  { unfold videoKey, noteIdToString, printNumber. now destruct id. }
  cbv zeta. rewrite Hkey.
  split; [|split].
  - intros H1 H2. eexists _, _.
    rewrite (upload_stores w id video1 m H1).
    split; [reflexivity|]. split; [apply lookup_insert_eq|].
    rewrite upload_stores by exact H2. simpl.
    split; [reflexivity|]. split; [apply lookup_insert_eq|].
    split; [apply insert_insert_eq|]. now rewrite <- app_assoc.
  - intros e m' Hrun.
    destruct (storageFailure w (calls m) (videoKey w id)) as [e0|] eqn:Hf.
    + rewrite (upload_fails w id video1 m e0 Hf) in Hrun.
      injection Hrun as <- <-. now repeat split.
    + rewrite (upload_stores w id video1 m Hf) in Hrun. discriminate.
  - unfold getPublicUrl. do 2 f_equal.
Qed.

Lemma C9_publish_witness :
  (exists m1 m2,
     run (uploadVideoToSupabase sampleWorld (IdNumber 42) "old") freshMachine =
       (Ok "https://project.supabase.co/storage/v1/object/public/videos/note-videos/42.mp4", m1)
     /\ storage m1 !! ("videos", "note-videos/42.mp4") = Some "old"
     /\ run (uploadVideoToSupabase sampleWorld (IdNumber 42) "new") m1 =
       (Ok "https://project.supabase.co/storage/v1/object/public/videos/note-videos/42.mp4", m2)
     /\ storage m2 !! ("videos", "note-videos/42.mp4") = Some "new")
  /\ (exists m1 m2,
        run (uploadVideoToSupabase sampleWorld (IdString "week 7") "old") freshMachine =
          (Ok "https://project.supabase.co/storage/v1/object/public/videos/note-videos/week%207.mp4", m1)
        /\ storage m1 !! ("videos", "note-videos/week 7.mp4") = Some "old"
        /\ run (uploadVideoToSupabase sampleWorld (IdString "week 7") "new") m1 =
          (Ok "https://project.supabase.co/storage/v1/object/public/videos/note-videos/week%207.mp4", m2)
        /\ storage m2 !! ("videos", "note-videos/week 7.mp4") = Some "new").
Proof.
  split.
  - destruct (C9_publish_overwrites sampleWorld (IdNumber 42) "old" "new" freshMachine)
      as [H _].
    destruct (H eq_refl eq_refl) as (m1 & m2 & R1 & S1 & R2 & S2 & _).
    exists m1, m2. repeat split; assumption.
  - destruct (C9_publish_overwrites sampleWorld (IdString "week 7") "old" "new"
                freshMachine) as [H _].
    destruct (H eq_refl eq_refl) as (m1 & m2 & R1 & S1 & R2 & S2 & _).
    exists m1, m2. repeat split; assumption.
Defined.

End Publisher.

(** ** The speech synthesizer *)

Module Speech.

Lemma auth_error_distinct (reason : string) : ttsAuthError <> ttsCallError reason.
Proof. unfold ttsAuthError, ttsCallError, Error. intros H. discriminate H. Qed.

(** C7: for every scene, the speech block joins the chunks of the
    streamed response into one buffer; when that buffer is empty it
    fails with an error and writes no audio file, and otherwise it
    writes the buffer as the scene's audio file; a rejection with status
    401 gives the authentication error, which no other failure gives. *)
Theorem C7_speech_buffer_and_auth (w : World) (tempDir : string) (i : nat)
    (sceneText : string) (m : Machine) :
  (forall chunks,
     textToSpeech w (calls m) sceneText = TtsStream chunks None ->
     String.concat EmptyString chunks = EmptyString ->
     exists m',
       run (sceneAudio w tempDir i sceneText) m =
         (Throw (ttsCallError "ElevenLabs SDK returned an empty audio stream."), m')
       /\ trace m' = (trace m ++ [ETextToSpeech voiceId modelId sceneText])%list
       /\ files m' = files m)
  /\ (forall chunks,
       textToSpeech w (calls m) sceneText = TtsStream chunks None ->
       String.concat EmptyString chunks <> EmptyString ->
       exists m',
         run (sceneAudio w tempDir i sceneText) m = (Ok (audioPathOf tempDir i), m')
         /\ trace m' =
            (trace m ++ [ETextToSpeech voiceId modelId sceneText;
                         EWriteFile (audioPathOf tempDir i)
                           (String.concat EmptyString chunks)])%list
         /\ files m' !! audioPathOf tempDir i =
            Some (String.concat EmptyString chunks))
  /\ (forall e,
       ttsFailure (textToSpeech w (calls m) sceneText) = Some e ->
       exists m',
         run (sceneAudio w tempDir i sceneText) m =
           (Throw (if bool_decide (statusCode e = Some 401) then ttsAuthError
                   else ttsCallError (message e)), m')
         /\ files m' = files m)
  /\ (forall reason, ttsAuthError <> ttsCallError reason).
Proof.
  unfold sceneAudio, convertAsStream, writeFile. unfold_monad.
  fold (audioPathOf tempDir i).
  split; [|split; [|split]].
  - intros chunks Ho He. rewrite Ho, He. simpl. eauto.
  - intros chunks Ho Hne. rewrite Ho.
    destruct (String.concat EmptyString chunks) as [|c b] eqn:Hb; [easy|].
    simpl. eexists. split; [reflexivity|]. split.
    + simpl. now rewrite <- app_assoc.
    + simpl. apply lookup_insert_eq.
  - intros e Hf.
    destruct (textToSpeech w (calls m) sceneText) as [e0|chunks [e0|]];
      simpl in Hf; try discriminate; injection Hf as ->;
      destruct (bool_decide (statusCode e = Some 401)); simpl; eauto.
  - exact auth_error_distinct.
Qed.

Lemma C7_speech_witness :
  (exists m',
     run (sceneAudio sampleWorld "/tmp/ai-video-AbC123" 0 "Hi.") freshMachine =
       (Ok "/tmp/ai-video-AbC123/scene_0.mp3", m')
     /\ files m' !! "/tmp/ai-video-AbC123/scene_0.mp3" = Some "ID3Hi.")
  /\ (exists m',
       run (sceneAudio rejectingWorld "/tmp/ai-video-AbC123" 0 "Hi.") freshMachine =
         (Throw ttsAuthError, m')
       /\ files m' = ∅).
Proof.
  split.
  - destruct (C7_speech_buffer_and_auth sampleWorld "/tmp/ai-video-AbC123" 0 "Hi."
                freshMachine) as (_ & H & _).
    destruct (H ["ID3"; "Hi."] eq_refl) as (m' & R & _ & F); [discriminate|].
    exists m'. split; [exact R | exact F].
  - destruct (C7_speech_buffer_and_auth rejectingWorld "/tmp/ai-video-AbC123" 0 "Hi."
                freshMachine) as (_ & _ & H & _).
    destruct (H (mkError "Status code: 401" (Some 401)) eq_refl) as (m' & R & F).
    exists m'. split; [exact R | exact F].
Defined.

End Speech.

(** ** The image synthesizer *)

Module Image.

Lemma trace_snoc2 (t : list Event) (a b : Event) :
  ((t ++ [a]) ++ [b] = t ++ [a; b])%list.
Proof. now rewrite <- app_assoc. Qed.

Lemma trace_snoc3 (t : list Event) (a b c : Event) :
  (((t ++ [a]) ++ [b]) ++ [c] = t ++ [a; b; c])%list.
Proof. now rewrite <- !app_assoc. Qed.

Lemma trace_snoc4 (t : list Event) (a b c d : Event) :
  ((((t ++ [a]) ++ [b]) ++ [c]) ++ [d] = t ++ [a; b; c; d])%list.
Proof. now rewrite <- !app_assoc. Qed.

(** C3: for every scene, when the first answer of the image service has
    status 503 the image block waits 20000 ms and sends the request
    exactly once more; when the first answer has another status outside
    200..299, or the second answer is outside 200..299, it fails with an
    error whose message carries that answer's status and body; it never
    sends a third request. *)
Theorem C3_image_retry_once (w : World) (tempDir : string) (i : nat)
    (sceneText subjectName : string) (m : Machine) :
  (forall body1 status2 body2,
     fetchImage w (calls m) (imagePrompt w subjectName sceneText) =
       FetchResponse 503 body1 ->
     fetchImage w (S (calls m)) (imagePrompt w subjectName sceneText) =
       FetchResponse status2 body2 ->
     exists m',
       run (sceneImage w tempDir i sceneText subjectName) m =
         (if ok (mkResponse status2 body2) then Ok (imagePathOf tempDir i)
          else Throw (imageCallError status2 body2), m')
       /\ trace m' =
          (trace m ++
           [imageRequest w subjectName sceneText; ESleep 20000;
            imageRequest w subjectName sceneText] ++
           (if ok (mkResponse status2 body2)
            then [EWriteFile (imagePathOf tempDir i) body2] else []))%list)
  /\ (forall status1 body1,
       fetchImage w (calls m) (imagePrompt w subjectName sceneText) =
         FetchResponse status1 body1 ->
       status1 <> 503 -> ok (mkResponse status1 body1) = false ->
       exists m',
         run (sceneImage w tempDir i sceneText subjectName) m =
           (Throw (imageCallError status1 body1), m')
         /\ trace m' = (trace m ++ [imageRequest w subjectName sceneText])%list)
  /\ (forall r m',
       run (sceneImage w tempDir i sceneText subjectName) m = (r, m') ->
       exists evs,
         trace m' = (trace m ++ evs)%list
         /\ List.length (List.filter isFetch evs) <= 2
         /\ calls m' <= 2 + calls m).
Proof.
  unfold sceneImage, fetch, sleep, writeFile, imageRequest. unfold_monad.
  fold (imagePathOf tempDir i).
  split; [|split].
  - intros body1 status2 body2 H1 H2. rewrite H1. simpl. rewrite H2.
    destruct (ok (mkResponse status2 body2)) eqn:Hok; simpl;
      eexists; (split; [reflexivity|]); simpl.
    + apply trace_snoc4.
    + apply trace_snoc3.
  - intros status1 body1 H1 Hne Hok. rewrite H1. simpl.
    destruct (status1 =? 503)%nat eqn:E; [apply Nat.eqb_eq in E; contradiction|].
    rewrite Hok. simpl. eauto.
  - intros r m'.
    destruct (fetchImage w (calls m) (imagePrompt w subjectName sceneText))
      as [e1|status1 body1]; simpl.
    { intros H; injection H as <- <-. eexists [_]. simpl. repeat split; simpl; solve [reflexivity | lia]. }
    destruct (status1 =? 503)%nat; simpl.
    + destruct (fetchImage w (S (calls m)) (imagePrompt w subjectName sceneText))
        as [e2|status2 body2]; simpl.
      { intros H; injection H as <- <-. eexists [_; _; _]. simpl.
        rewrite trace_snoc3. repeat split; simpl; solve [reflexivity | lia]. }
      destruct (ok (mkResponse status2 body2)); simpl;
        intros H; injection H as <- <-; simpl.
      * eexists [_; _; _; _]. rewrite trace_snoc4. simpl. repeat split; simpl; solve [reflexivity | lia].
      * eexists [_; _; _]. rewrite trace_snoc3. simpl. repeat split; simpl; solve [reflexivity | lia].
    + destruct (ok (mkResponse status1 body1)); simpl;
        intros H; injection H as <- <-; simpl.
      * eexists [_; _]. rewrite trace_snoc2. simpl. repeat split; simpl; solve [reflexivity | lia].
      * eexists [_]. simpl. repeat split; simpl; solve [reflexivity | lia].
Qed.

Lemma C3_image_witness :
  (exists m',
     run (sceneImage sampleWorld "/tmp/ai-video-AbC123" 0 "Hi." "Art")
       (tick freshMachine) =
       (Ok "/tmp/ai-video-AbC123/scene_0.png", m')
     /\ trace m' =
        [imageRequest sampleWorld "Art" "Hi."; ESleep 20000;
         imageRequest sampleWorld "Art" "Hi.";
         EWriteFile "/tmp/ai-video-AbC123/scene_0.png" "PNG"])
  /\ (exists m',
       run (sceneImage busyWorld "/tmp/ai-video-AbC123" 0 "Hi." "Art")
         freshMachine =
         (Throw (Error "Hugging Face API failed with status 503: loading"), m')
       /\ trace m' =
          [imageRequest busyWorld "Art" "Hi."; ESleep 20000;
           imageRequest busyWorld "Art" "Hi."]).
Proof.
  split.
  - destruct (C3_image_retry_once sampleWorld "/tmp/ai-video-AbC123" 0 "Hi." "Art"
                (tick freshMachine)) as (H & _).
    destruct (H "loading" 200 "PNG" eq_refl eq_refl) as (m' & R & T).
    exists m'. split; [exact R | exact T].
  - destruct (C3_image_retry_once busyWorld "/tmp/ai-video-AbC123" 0 "Hi." "Art"
                freshMachine) as (H & _).
    destruct (H "loading" 503 "loading" eq_refl eq_refl) as (m' & R & T).
    exists m'. split; [exact R | exact T].
Defined.

End Image.

(** ** The request gateway *)

Module Gateway.

Lemma handler_unauthorized (w : World) (req : Request) (m : Machine) :
  ~ authorized w req ->
  run (generateVideoHandler w req) m = (Ok unauthorized, m).
Proof.
  intros Ha. unfold generateVideoHandler. unfold_monad.
  now rewrite bool_decide_eq_false_2 by exact Ha.
Qed.

Lemma handler_rejects (w : World) (req : Request) (m : Machine) :
  authorized w req ->
  notNoteId (noteId (reqBody req)) || notString (noteText (reqBody req))
    || notString (subjectName (reqBody req)) = true ->
  run (generateVideoHandler w req) m = (Ok missingParameters, m).
Proof.
  intros Ha Hf. unfold generateVideoHandler. unfold_monad.
  rewrite bool_decide_eq_true_2 by exact Ha. simpl. now rewrite Hf.
Qed.

Lemma handler_runs (w : World) (req : Request) (m : Machine)
    (id : NoteId) (text subject : string) :
  authorized w req ->
  reqBody req = mkBody (Some id) (Some text) (Some subject) ->
  notNoteId (Some id) = false -> notString (Some text) = false ->
  notString (Some subject) = false ->
  run (generateVideoHandler w req) m =
  match run (generateVideoAndUpload w id text subject) m with
  | (Ok publicUrl, m') => (Ok (complete publicUrl), m')
  | (Throw error, m') => (Ok (failed error), m')
  end.
Proof.
  intros Ha Hb H1 H2 H3. unfold generateVideoHandler. unfold_monad.
  rewrite bool_decide_eq_true_2 by exact Ha. rewrite Hb. cbn [negb noteId noteText subjectName].
  rewrite H1, H2, H3. simpl.
  now destruct (generateVideoAndUpload w id text subject m) as [[url|e] m'].
Qed.


(** C10, as stated for every request, fails: a request whose [noteId]
    is 0 and whose Authorization header is wrong or absent is answered
    401, not 400. *)
Lemma C10_counterexample :
  (presentButFalsy
     (reqBody (sampleRequest (Some "Bearer wrong") (Some (IdNumber 0))
                 (Some "Cells divide.") (Some "Biology")))
   /\ run (generateVideoHandler sampleWorld
             (sampleRequest (Some "Bearer wrong") (Some (IdNumber 0))
                (Some "Cells divide.") (Some "Biology"))) freshMachine =
      (Ok (mkReply 401 [("error", "Unauthorized")]), freshMachine))
  /\ run (generateVideoHandler sampleWorld
            (sampleRequest None (Some (IdNumber 42)) (Some EmptyString)
               (Some "Biology"))) freshMachine =
     (Ok (mkReply 401 [("error", "Unauthorized")]), freshMachine)
  /\ ~ falsyFieldProperty sampleWorld
        (sampleRequest (Some "Bearer wrong") (Some (IdNumber 0))
           (Some "Cells divide.") (Some "Biology")) freshMachine.
Proof.
  split; [split; [left; exists 0%float; split; reflexivity | reflexivity]|].
  split; [reflexivity|].
  intros H.
  specialize (H (or_introl (ex_intro _ 0%float (conj eq_refl eq_refl)))).
  discriminate H.
Qed.

(** C10 (amended): the required-field check tests truthiness, not
    presence: for every request that carries the right Authorization
    header and in which [noteId] is 0 or the empty string, or [noteText]
    or [subjectName] is the empty string, the gateway answers 400; and
    no request with such a field, authorized or not, starts a run
    (nothing happens on the machine). *)
Theorem C10_falsy_fields_get_400 (w : World) (req : Request) (m : Machine) :
  presentButFalsy (reqBody req) ->
  (authorized w req ->
   run (generateVideoHandler w req) m =
     (Ok (mkReply 400 [("error", "Missing required parameters.")]), m))
  /\ (~ authorized w req ->
      run (generateVideoHandler w req) m =
        (Ok (mkReply 401 [("error", "Unauthorized")]), m))
  /\ (run (generateVideoHandler w req) m).2 = m.
Proof.
  intros Hf.
  assert (Hb : notNoteId (noteId (reqBody req)) || notString (noteText (reqBody req))
               || notString (subjectName (reqBody req)) = true).
  { destruct Hf as [(n & -> & Hn) | [-> | [-> | ->]]]; simpl;
      rewrite ?Hn; now rewrite ?orb_true_r. }
  split; [|split].
  - intros Ha. now apply handler_rejects.
  - apply handler_unauthorized.
  - destruct (decide (authorization req = Some (bearer (WORKER_SECRET_KEY w))))
      as [Ha|Ha]; fold (authorized w req) in Ha.
    + now rewrite (handler_rejects w req m Ha Hb).
    + now rewrite (handler_unauthorized w req m Ha).
Qed.


Lemma C10_falsy_fields_witness :
  run (generateVideoHandler sampleWorld
         (sampleRequest (Some "Bearer s3cret") (Some (IdNumber 0))
            (Some "Cells divide.") (Some "Biology"))) freshMachine =
    (Ok (mkReply 400 [("error", "Missing required parameters.")]), freshMachine)
  /\ run (generateVideoHandler sampleWorld
            (sampleRequest (Some "Bearer s3cret") (Some (IdNumber 42))
               (Some "Cells divide.") (Some EmptyString))) freshMachine =
    (Ok (mkReply 400 [("error", "Missing required parameters.")]), freshMachine).
Proof.
  split.
  - apply (C10_falsy_fields_get_400 sampleWorld
             (sampleRequest (Some "Bearer s3cret") (Some (IdNumber 0))
                (Some "Cells divide.") (Some "Biology")) freshMachine).
    + left. exists 0%float. split; reflexivity.
    + reflexivity.
  - apply (C10_falsy_fields_get_400 sampleWorld
             (sampleRequest (Some "Bearer s3cret") (Some (IdNumber 42))
                (Some "Cells divide.") (Some EmptyString)) freshMachine).
    + right. right. right. reflexivity.
    + reflexivity.
Defined.

End Gateway.

(** ** The pipeline as a whole *)

Module Pipeline.

Lemma run_pair {A : Type} (c : M A) (m : Machine) :
  run c m = ((run c m).1, (run c m).2).
Proof. now destruct (run c m). Qed.

(** C2: for every input text without a sentence terminator the run
    fails with the empty-input error right after the splitter has found
    no scene: the temporary directory has been created and is removed on
    the way out, and nothing else has happened: no file written, no call
    to an external service, no per-scene step, no upload. *)
Theorem C2_no_terminator_fails_early (w : World) (id : NoteId)
    (noteText subjectName : string) (m : Machine) :
  containsTerminator noteText = false ->
  exists m',
    run (generateVideoAndUpload w id noteText subjectName) m =
      (Throw emptyInputError, m')
    /\ trace m' =
       (trace m ++ [EMkdtemp (tempDirOf w); ERemove (tempDirOf w)])%list
    /\ calls m' = calls m
    /\ storage m' = storage m.
Proof.
  intros Hn.
  unfold generateVideoAndUpload, generateInTempDir, mkdtemp, rm, tokenMissing.
  rewrite (moduleLoaded w).
  unfold_monad. rewrite (Splitter.scenes_nil_no_terminator noteText Hn). simpl.
  eexists. split; [reflexivity|]. simpl.
  split; [now rewrite <- app_assoc|]. split; reflexivity.
Qed.

Lemma C2_no_terminator_witness :
  exists m',
    run (generateVideoAndUpload sampleWorld (IdNumber 42) "hello world" "Biology")
      freshMachine =
      (Throw (Error "Could not break note into scenes."), m')
    /\ trace m' = [EMkdtemp "/tmp/ai-video-AbC123"; ERemove "/tmp/ai-video-AbC123"]
    /\ calls m' = 0.
Proof.
  destruct (C2_no_terminator_fails_early sampleWorld (IdNumber 42) "hello world"
              "Biology" freshMachine eq_refl) as (m' & R & T & C & _).
  exists m'. repeat split; assumption.
Defined.

(** C5: every run of the pipeline, whether it returns a URL or throws
    at any step, removes the temporary directory it created at its
    start, with everything below it, as its last step. *)
Theorem C5_temp_dir_always_removed (w : World) (id : NoteId)
    (noteText subjectName : string) (m : Machine) (r : Result string)
    (m' : Machine) :
  run (generateVideoAndUpload w id noteText subjectName) m = (r, m') ->
  (tempDirOf w ∉ dirs m')
  /\ (forall p, underDir (tempDirOf w) p = true -> files m' !! p = None)
  /\ exists evs,
       trace m' =
       (trace m ++ [EMkdtemp (tempDirOf w)] ++ evs ++
        [ERemove (tempDirOf w)])%list.
Proof.
  unfold generateVideoAndUpload, tokenMissing. rewrite (moduleLoaded w).
  intros H. unfold_monad. unfold mkdtemp in H. fold (tempDirOf w) in H.
  set (m0 := emit (EMkdtemp (tempDirOf w)) _) in H.
  destruct (generateInTempDir w (tempDirOf w) id noteText subjectName m0)
    as [r1 m1] eqn:Hbody.
  destruct (Mono.generateInTempDir_ _ _ _ _ _ _ _ _ Hbody) as [evs Hevs].
  unfold rm in H. injection H as Hr Hm. subst r m'. simpl.
  split; [apply not_elem_of_difference; right; now apply elem_of_singleton|].
  split.
  - intros p Hp. apply map_lookup_filter_None. right. intros x _. simpl.
    now rewrite Hp.
  - exists evs. unfold continues in Hevs. rewrite Hevs. unfold m0. simpl.
    now rewrite <- !app_assoc.
Qed.

Lemma C5_temp_dir_witness :
  ((run (generateVideoAndUpload sampleWorld (IdNumber 42) "Hi. Yo!" "Art")
      freshMachine).1 =
     Ok "https://project.supabase.co/storage/v1/object/public/videos/note-videos/42.mp4"
   /\ "/tmp/ai-video-AbC123" ∉
      dirs (run (generateVideoAndUpload sampleWorld (IdNumber 42) "Hi. Yo!" "Art")
              freshMachine).2)
  /\ ((run (generateVideoAndUpload rejectingWorld (IdNumber 42) "Hi. Yo!" "Art")
        freshMachine).1 = Throw ttsAuthError
      /\ "/tmp/ai-video-AbC123" ∉
         dirs (run (generateVideoAndUpload rejectingWorld (IdNumber 42) "Hi. Yo!"
                      "Art") freshMachine).2).
Proof.
  split; (split; [vm_compute; reflexivity|]).
  - destruct (C5_temp_dir_always_removed sampleWorld (IdNumber 42) "Hi. Yo!" "Art"
                freshMachine _ _ (run_pair _ _)) as (Hd & _).
    exact Hd.
  - destruct (C5_temp_dir_always_removed rejectingWorld (IdNumber 42) "Hi. Yo!" "Art"
                freshMachine _ _ (run_pair _ _)) as (Hd & _).
    exact Hd.
Defined.

End Pipeline.

(** ** The manifests *)

Module Manifest.

Import StrFacts.






























End Manifest.

(** ** What a run keeps unchanged *)

Module Frame.

Lemma bind_inv {A B : Type} (c : M A) (f : A -> M B) (m : Machine)
    (r : Result B) (m' : Machine) :
  (c ≫= f) m = (r, m') ->
  (exists a m1, c m = (Ok a, m1) /\ f a m1 = (r, m'))
  \/ (exists e, c m = (Throw e, m') /\ r = Throw e).
Proof.
  unfold mbind, M_bind. destruct (c m) as [[a|e] m1]; intros H.
  - left. eauto.
  - right. injection H as <- <-. eauto.
Qed.

Lemma catch_inv {A : Type} (c : M A) (h : JsError -> M A) (m : Machine)
    (r : Result A) (m' : Machine) :
  tryCatch c h m = (r, m') ->
  (exists a, c m = (Ok a, m') /\ r = Ok a)
  \/ (exists e m1, c m = (Throw e, m1) /\ h e m1 = (r, m')).
Proof.
  unfold tryCatch. destruct (c m) as [[a|e] m1]; intros H.
  - left. injection H as <- <-. eauto.
  - right. eauto.
Qed.

(** What the encoder wrote is what is read back. *)
Lemma encode_then_read (w : World) (images audios output : string)
    (m m1 m2 : Machine) (video : string) :
  encode w images audios output m = (Ok tt, m1) ->
  readFile output m1 = (Ok video, m2) ->
  exists n i a, ffmpeg w n i a = EncodeEnd video.
Proof.
  unfold encode, readFile.
  destruct (ffmpeg w (calls m) (files m !! images) (files m !! audios))
    as [e|out] eqn:E; [discriminate|].
  intros H; injection H as <-. simpl. rewrite lookup_insert_eq.
  intros H; injection H as <- _. eauto.
Qed.

Section Generic.

Variable R : Machine -> Machine -> Prop.
Hypothesis R_refl : forall m, R m m.
Hypothesis R_trans : forall a b c, R a b -> R b c -> R a c.

Lemma keeps_ret {A : Type} (a : A) : keeps R (mret a).
Proof. intros m r m' H. unfold mret, M_ret in H. injection H as _ <-. apply R_refl. Qed.

Lemma keeps_throw {A : Type} (e : JsError) : keeps R (@throw A e).
Proof. intros m r m' H. unfold throw in H. injection H as _ <-. apply R_refl. Qed.

Lemma keeps_bind {A B : Type} (c : M A) (f : A -> M B) :
  keeps R c -> (forall a, keeps R (f a)) -> keeps R (c ≫= f).
Proof.
  intros Hc Hf m r m' H.
  apply bind_inv in H as [(a & m1 & H1 & H2) | (e & H1 & _)].
  - eapply R_trans; [exact (Hc _ _ _ H1) | exact (Hf _ _ _ _ H2)].
  - exact (Hc _ _ _ H1).
Qed.

Lemma keeps_catch {A : Type} (c : M A) (h : JsError -> M A) :
  keeps R c -> (forall e, keeps R (h e)) -> keeps R (tryCatch c h).
Proof.
  intros Hc Hh m r m' H.
  apply catch_inv in H as [(a & H1 & _) | (e & m1 & H1 & H2)].
  - exact (Hc _ _ _ H1).
  - eapply R_trans; [exact (Hc _ _ _ H1) | exact (Hh _ _ _ _ H2)].
Qed.

Variable w : World.
Variable dir : string.
Hypothesis H_write : forall x content, keeps R (writeFile (pathJoin dir x) content).
Hypothesis H_read : forall p, keeps R (readFile p).
Hypothesis H_sleep : forall ms, keeps R (sleep ms).
Hypothesis H_speech : forall text, keeps R (convertAsStream w text).
Hypothesis H_fetch : forall a p, keeps R (fetch w a p).
Hypothesis H_probe : forall p, keeps R (ffprobeCall w p).
Hypothesis H_encode : forall a b x, keeps R (encode w a b (pathJoin dir x)).

Lemma keeps_sceneAudio (i : nat) (text : string) :
  keeps R (sceneAudio w dir i text).
Proof.
  unfold sceneAudio. apply keeps_bind; [|intros; apply keeps_ret].
  apply keeps_catch.
  - apply keeps_bind; [apply H_speech|]. intros chunks.
    destruct (_ =? _)%nat; [apply keeps_throw | apply H_write].
  - intros e. destruct (bool_decide _); apply keeps_throw.
Qed.

Lemma keeps_sceneImage (i : nat) (text subject : string) :
  keeps R (sceneImage w dir i text subject).
Proof.
  unfold sceneImage. apply keeps_bind; [|intros; apply keeps_ret].
  apply keeps_catch; [|intros; apply keeps_throw].
  apply keeps_bind; [apply H_fetch|]. intros first.
  apply keeps_bind.
  - destruct (_ =? _)%nat; [|apply keeps_ret].
    apply keeps_bind; [apply H_sleep | intros; apply H_fetch].
  - intros response. destruct (negb _); [apply keeps_throw | apply H_write].
Qed.

Lemma keeps_getAudioDuration (p : string) : keeps R (getAudioDuration w p).
Proof.
  unfold getAudioDuration. apply keeps_bind; [apply H_probe|].
  intros [e|d]; [apply keeps_throw | apply keeps_ret].
Qed.

Lemma keeps_sceneLoop (subject : string) (rest : list string) :
  forall i acc, keeps R (sceneLoop w dir subject i rest acc).
Proof.
  induction rest as [|scene rest IH]; intros i acc; simpl; [apply keeps_ret|].
  apply keeps_bind; [apply keeps_sceneAudio | intros ?].
  apply keeps_bind; [apply keeps_sceneImage | intros ?].
  apply keeps_bind; [apply keeps_getAudioDuration | intros ?].
  apply IH.
Qed.

(** A run of the [try] block either throws before the upload, or
    reaches the upload with a non-empty video that the encoder wrote. *)
Lemma generateInTempDir_cases (id : NoteId) (text subject : string)
    (m : Machine) (r : Result string) (m' : Machine) :
  generateInTempDir w dir id text subject m = (r, m') ->
  (exists e, r = Throw e /\ R m m')
  \/ (exists m1 video n i a,
        R m m1 /\ video <> EmptyString
        /\ ffmpeg w n i a = EncodeEnd video
        /\ uploadVideoToSupabase w id video m1 = (r, m')).
Proof.
  unfold generateInTempDir.
  destruct (_ =? _)%nat.
  { intros H. left. unfold throw in H. injection H as <- <-. eauto. }
  intros H.
  apply bind_inv in H as [(assets & m1 & H1 & H) | (e & H1 & ->)];
    [|left; eexists; split; [reflexivity | exact (keeps_sceneLoop _ _ _ _ _ _ _ H1)]].
  pose proof (keeps_sceneLoop _ _ _ _ _ _ _ H1) as R1.
  apply bind_inv in H as [([] & m2 & H2 & H) | (e & H2 & ->)];
    [|left; eexists; split; [reflexivity|];
      exact (R_trans _ _ _ R1 (H_write _ _ _ _ _ H2))].
  pose proof (R_trans _ _ _ R1 (H_write _ _ _ _ _ H2)) as R2.
  apply bind_inv in H as [([] & m3 & H3 & H) | (e & H3 & ->)];
    [|left; eexists; split; [reflexivity|];
      exact (R_trans _ _ _ R2 (H_write _ _ _ _ _ H3))].
  pose proof (R_trans _ _ _ R2 (H_write _ _ _ _ _ H3)) as R3.
  apply bind_inv in H as [([] & m4 & H4 & H) | (e & H4 & ->)];
    [|left; eexists; split; [reflexivity|];
      exact (R_trans _ _ _ R3 (H_encode _ _ _ _ _ _ H4))].
  pose proof (R_trans _ _ _ R3 (H_encode _ _ _ _ _ _ H4)) as R4.
  apply bind_inv in H as [(video & m5 & H5 & H) | (e & H5 & ->)];
    [|left; eexists; split; [reflexivity|];
      exact (R_trans _ _ _ R4 (H_read _ _ _ _ H5))].
  pose proof (R_trans _ _ _ R4 (H_read _ _ _ _ H5)) as R5.
  destruct (encode_then_read _ _ _ _ _ _ _ _ H4 H5) as (n & i & a & Henc).
  destruct video as [|c video].
  - simpl in H. unfold throw in H. injection H as <- <-. left. eauto.
  - simpl in H. right. exists m5, (String c video), n, i, a.
    repeat split; [exact R5 | discriminate | exact Henc | exact H].
Qed.

End Generic.

(** *** The storage service *)

Ltac primitive :=
  let m := fresh "m" in let r := fresh "r" in let m' := fresh "m'" in
  let H := fresh "H" in
  intros m r m' H; unfold_monad;
  repeat match type of H with
         | context [match ?x with _ => _ end] => destruct x
         end;
  injection H as _ <-.

Lemma sameStorage_refl (m : Machine) : sameStorage m m.
Proof. reflexivity. Qed.

Lemma sameStorage_trans (a b c : Machine) :
  sameStorage a b -> sameStorage b c -> sameStorage a c.
Proof. unfold sameStorage. congruence. Qed.

Lemma storage_writeFile (p c : string) : keeps sameStorage (writeFile p c).
Proof. unfold writeFile. primitive. reflexivity. Qed.

Lemma storage_readFile (p : string) : keeps sameStorage (readFile p).
Proof. unfold readFile. primitive; reflexivity. Qed.

Lemma storage_sleep (ms : N) : keeps sameStorage (sleep ms).
Proof. unfold sleep. primitive. reflexivity. Qed.

Lemma storage_speech (w : World) (t : string) : keeps sameStorage (convertAsStream w t).
Proof. unfold convertAsStream. primitive; reflexivity. Qed.

Lemma storage_fetch (w : World) (a p : string) : keeps sameStorage (fetch w a p).
Proof. unfold fetch. primitive; reflexivity. Qed.

Lemma storage_probe (w : World) (p : string) : keeps sameStorage (ffprobeCall w p).
Proof. unfold ffprobeCall. primitive. reflexivity. Qed.

Lemma storage_encode (w : World) (a b o : string) : keeps sameStorage (encode w a b o).
Proof. unfold encode. primitive; reflexivity. Qed.

(** *** Files and directories *)

Lemma prefix_append (a b : string) : String.prefix a (a +:+ b) = true.
Proof.
  induction a as [|c a IH]; [now destruct b|].
  rewrite StrFacts.append_cons. simpl.
  destruct (ascii_dec c c); [exact IH | contradiction].
Qed.

Lemma underDir_join (dir x : string) : underDir dir (pathJoin dir x) = true.
Proof.
  unfold underDir, pathJoin. rewrite <- StrFacts.append_assoc.
  now rewrite prefix_append, orb_true_r.
Qed.

Lemma outside_ne (dir x p : string) :
  underDir dir p = false -> pathJoin dir x <> p.
Proof. intros Hp <-. now rewrite underDir_join in Hp. Qed.

Lemma touchesOnly_refl (dir : string) (m : Machine) : touchesOnly dir m m.
Proof. now split. Qed.

Lemma touchesOnly_trans (dir : string) (a b c : Machine) :
  touchesOnly dir a b -> touchesOnly dir b c -> touchesOnly dir a c.
Proof.
  intros [F1 D1] [F2 D2]. split; [|congruence].
  intros p Hp. now rewrite (F2 p Hp), (F1 p Hp).
Qed.

Lemma files_writeFile (dir x c : string) :
  keeps (touchesOnly dir) (writeFile (pathJoin dir x) c).
Proof.
  unfold writeFile. primitive. split; [|reflexivity].
  intros p Hp. simpl. apply lookup_insert_ne. now apply outside_ne.
Qed.

Lemma files_readFile (dir p : string) : keeps (touchesOnly dir) (readFile p).
Proof. unfold readFile. primitive; now split. Qed.

Lemma files_sleep (dir : string) (ms : N) : keeps (touchesOnly dir) (sleep ms).
Proof. unfold sleep. primitive. now split. Qed.

Lemma files_speech (dir : string) (w : World) (t : string) :
  keeps (touchesOnly dir) (convertAsStream w t).
Proof. unfold convertAsStream. primitive; now split. Qed.

Lemma files_fetch (dir : string) (w : World) (a p : string) :
  keeps (touchesOnly dir) (fetch w a p).
Proof. unfold fetch. primitive; now split. Qed.

Lemma files_probe (dir : string) (w : World) (p : string) :
  keeps (touchesOnly dir) (ffprobeCall w p).
Proof. unfold ffprobeCall. primitive. now split. Qed.

Lemma files_encode (dir : string) (w : World) (a b x : string) :
  keeps (touchesOnly dir) (encode w a b (pathJoin dir x)).
Proof.
  unfold encode. primitive; [now split|].
  split; [|reflexivity].
  intros p Hp. simpl. apply lookup_insert_ne. now apply outside_ne.
Qed.

Lemma files_upload (dir : string) (w : World) (id : NoteId) (video : string) :
  keeps (touchesOnly dir) (uploadVideoToSupabase w id video).
Proof.
  intros m r m' H. unfold uploadVideoToSupabase, storageUpload in H.
  unfold_monad.
  destruct (storageFailure w (calls m) _);
    [|destruct (storage m !! _)]; injection H as _ <-; now split.
Qed.

End Frame.

(** ** Whole runs of the agent *)

Module WholeRun.

(** A run is the [try] block between the creation and the removal of
    the temporary directory. *)
Lemma run_inv (w : World) (id : NoteId) (text subject : string) (m : Machine)
    (r : Result string) (m' : Machine) :
  run (generateVideoAndUpload w id text subject) m = (r, m') ->
  exists m1,
    generateInTempDir w (tempDirOf w) id text subject
      (mkdtemp w (pathJoin (tmpdir w) "ai-video-") m).2 = (r, m1)
    /\ m' = (rm (tempDirOf w) m1).2.
Proof.
  unfold run, generateVideoAndUpload, tokenMissing. rewrite (moduleLoaded w).
  unfold mbind, M_bind, tryFinally, mkdtemp. fold (tempDirOf w). simpl.
  destruct (generateInTempDir _ _ _ _ _ _) as [r1 m1].
  unfold rm. intros H; injection H as <- <-. eauto.
Qed.

(** The [try] block changes the storage service only through a
    successful upload. *)
Lemma body_storage (w : World) (dir : string) (id : NoteId) (text subject : string)
    (m : Machine) (r : Result string) (m' : Machine) :
  generateInTempDir w dir id text subject m = (r, m') ->
  match r with
  | Throw _ => storage m' = storage m
  | Ok url =>
      url = getPublicUrl w "videos" (videoKey w id)
      /\ exists video n i a,
           video <> EmptyString /\ ffmpeg w n i a = EncodeEnd video
           /\ storage m' = <[("videos", videoKey w id):=video]> (storage m)
  end.
Proof.
  intros H.
  apply (Frame.generateInTempDir_cases sameStorage Frame.sameStorage_refl
           Frame.sameStorage_trans w dir) in H;
    try (intros; first [ apply Frame.storage_writeFile | apply Frame.storage_readFile
                       | apply Frame.storage_sleep | apply Frame.storage_speech
                       | apply Frame.storage_fetch | apply Frame.storage_probe
                       | apply Frame.storage_encode ]).
  destruct H as [(e & -> & Hs) | (m1 & video & n & i & a & Hs & Hne & Henc & Hup)];
    [exact Hs|].
  unfold sameStorage in Hs.
  destruct (storageFailure w (calls m1) (videoKey w id)) as [e|] eqn:Hf.
  - pose proof (Publisher.upload_fails w id video m1 e Hf) as Hu.
    unfold run in Hu. rewrite Hu in Hup. injection Hup as <- <-. exact Hs.
  - pose proof (Publisher.upload_stores w id video m1 Hf) as Hu.
    unfold run in Hu. rewrite Hu in Hup. injection Hup as <- <-.
    split; [reflexivity|]. exists video, n, i, a. simpl. now rewrite Hs.
Qed.

(** X1: a run that fails, at whatever step, leaves the storage service
    exactly as it was: nothing partial is ever published. *)
Theorem failed_run_publishes_nothing (w : World) (id : NoteId)
    (text subject : string) (m : Machine) (e : JsError) (m' : Machine) :
  run (generateVideoAndUpload w id text subject) m = (Throw e, m') ->
  storage m' = storage m.
Proof.
  intros H. apply run_inv in H as (m1 & Hbody & ->).
  apply body_storage in Hbody. simpl in *. exact Hbody.
Qed.

Lemma failed_run_witness :
  (run (generateVideoAndUpload busyWorld (IdNumber 42) "Hi. Yo!" "Art")
     freshMachine).1 =
    Throw (Error "Hugging Face API failed with status 503: loading")
  /\ storage (run (generateVideoAndUpload busyWorld (IdNumber 42) "Hi. Yo!" "Art")
               freshMachine).2 = ∅.
Proof.
  assert (Hrun :
    run (generateVideoAndUpload busyWorld (IdNumber 42) "Hi. Yo!" "Art") freshMachine =
    (Throw (Error "Hugging Face API failed with status 503: loading"),
     (run (generateVideoAndUpload busyWorld (IdNumber 42) "Hi. Yo!" "Art")
        freshMachine).2)) by (vm_compute; reflexivity).
  split; [now rewrite Hrun|].
  exact (failed_run_publishes_nothing _ _ _ _ _ _ _ Hrun).
Defined.



(** X3: a run leaves the files outside its temporary directory as they
    were, and the directories as they were but for its own, which is
    gone: together with the removal of everything below that directory,
    a run leaves no trace on the local file system. *)
Theorem run_touches_only_temp_dir (w : World) (id : NoteId)
    (text subject : string) (m : Machine) (r : Result string) (m' : Machine) :
  run (generateVideoAndUpload w id text subject) m = (r, m') ->
  (forall p, underDir (tempDirOf w) p = false -> files m' !! p = files m !! p)
  /\ dirs m' = dirs m ∖ {[tempDirOf w]}.
Proof.
  intros H. apply run_inv in H as (m1 & Hbody & ->).
  assert (Hk : touchesOnly (tempDirOf w)
                 (mkdtemp w (pathJoin (tmpdir w) "ai-video-") m).2 m1).
  { apply (Frame.generateInTempDir_cases (touchesOnly (tempDirOf w))
             (Frame.touchesOnly_refl _) (Frame.touchesOnly_trans _) w (tempDirOf w))
      in Hbody;
      try (intros; first [ apply Frame.files_writeFile | apply Frame.files_readFile
                         | apply Frame.files_sleep | apply Frame.files_speech
                         | apply Frame.files_fetch | apply Frame.files_probe
                         | apply Frame.files_encode ]).
    destruct Hbody as [(e & _ & Hk) | (m2 & video & n & i & a & Hk & _ & _ & Hup)];
      [exact Hk|].
    eapply Frame.touchesOnly_trans; [exact Hk|].
    exact (Frame.files_upload _ _ _ _ _ _ _ Hup). }
  destruct Hk as [Hf Hd]. unfold mkdtemp in Hf, Hd. fold (tempDirOf w) in Hf, Hd.
  simpl in Hf, Hd. unfold rm. simpl. split.
  - intros p Hp. rewrite <- (Hf p Hp).
    destruct (files m1 !! p) as [x|] eqn:E.
    + apply map_lookup_filter_Some. split; [exact E | exact Hp].
    + apply map_lookup_filter_None. now left.
  - rewrite Hd. apply set_eq. intros x.
    rewrite !elem_of_difference, elem_of_union, elem_of_singleton. tauto.
Qed.

Lemma run_touches_only_witness :
  dirs (run (generateVideoAndUpload sampleWorld (IdNumber 42) "Hi. Yo!" "Art")
          (mkMachine {["/home/notes.txt" := "keep"]} {["/home"]} ∅ 0 [])).2 =
    {["/home"]} ∖ {["/tmp/ai-video-AbC123"]}
  /\ files (run (generateVideoAndUpload sampleWorld (IdNumber 42) "Hi. Yo!" "Art")
              (mkMachine {["/home/notes.txt" := "keep"]} {["/home"]} ∅ 0 [])).2
       !! "/home/notes.txt" = Some "keep".
Proof.
  destruct (run_touches_only_temp_dir sampleWorld (IdNumber 42) "Hi. Yo!" "Art"
              (mkMachine {["/home/notes.txt" := "keep"]} {["/home"]} ∅ 0 [])
              _ _ (Pipeline.run_pair _ _)) as [Hf Hd].
  split; [exact Hd|].
  rewrite (Hf "/home/notes.txt" eq_refl). reflexivity.
Defined.

End WholeRun.

(** ** How many requests a run makes *)

Module Calls.

Lemma atMost_weaken {A : Type} (k k' : nat) (c : M A) :
  k <= k' -> atMost k c -> atMost k' c.
Proof. intros Hk Hc m r m' H. destruct (Hc _ _ _ H). lia. Qed.

Lemma atMost_ret {A : Type} (k : nat) (a : A) : atMost k (mret a).
Proof. intros m r m' H. unfold mret, M_ret in H. injection H as _ <-. lia. Qed.

Lemma atMost_throw {A : Type} (k : nat) (e : JsError) : atMost k (@throw A e).
Proof. intros m r m' H. unfold throw in H. injection H as _ <-. lia. Qed.

Lemma atMost_bind {A B : Type} (k1 k2 : nat) (c : M A) (f : A -> M B) :
  atMost k1 c -> (forall a, atMost k2 (f a)) -> atMost (k1 + k2) (c ≫= f).
Proof.
  intros Hc Hf m r m' H.
  apply Frame.bind_inv in H as [(a & m1 & H1 & H2) | (e & H1 & _)].
  - destruct (Hc _ _ _ H1), (Hf _ _ _ _ H2). lia.
  - destruct (Hc _ _ _ H1). lia.
Qed.

Lemma atMost_catch {A : Type} (k1 k2 : nat) (c : M A) (h : JsError -> M A) :
  atMost k1 c -> (forall e, atMost k2 (h e)) -> atMost (k1 + k2) (tryCatch c h).
Proof.
  intros Hc Hh m r m' H.
  apply Frame.catch_inv in H as [(a & H1 & _) | (e & m1 & H1 & H2)].
  - destruct (Hc _ _ _ H1). lia.
  - destruct (Hc _ _ _ H1), (Hh _ _ _ _ H2). lia.
Qed.

Ltac count :=
  let m := fresh "m" in let r := fresh "r" in let m' := fresh "m'" in
  let H := fresh "H" in
  intros m r m' H; unfold_monad;
  repeat match type of H with
         | context [match ?x with _ => _ end] => destruct x
         end;
  injection H as _ <-; simpl; lia.

Lemma atMost_writeFile (p c : string) : atMost 0 (writeFile p c).
Proof. unfold writeFile. count. Qed.

Lemma atMost_readFile (p : string) : atMost 0 (readFile p).
Proof. unfold readFile. count. Qed.

Lemma atMost_sleep (ms : N) : atMost 0 (sleep ms).
Proof. unfold sleep. count. Qed.

Lemma atMost_speech (w : World) (k : nat) (t : string) :
  resendsAtMost w k -> atMost (S k) (convertAsStream w t).
Proof.
  intros Hk m r m' H. unfold convertAsStream in H.
  specialize (Hk (calls m) t).
  destruct (textToSpeech w (calls m) t) as [e|chunks [e|]];
    injection H as _ <-; simpl; lia.
Qed.

Lemma atMost_fetch (w : World) (a p : string) : atMost 1 (fetch w a p).
Proof. unfold fetch. count. Qed.

Lemma atMost_probe (w : World) (p : string) : atMost 1 (ffprobeCall w p).
Proof. unfold ffprobeCall. count. Qed.

Lemma atMost_encode (w : World) (a b o : string) : atMost 1 (encode w a b o).
Proof. unfold encode. count. Qed.

Lemma atMost_upload (w : World) (id : NoteId) (video : string) :
  atMost 1 (uploadVideoToSupabase w id video).
Proof.
  intros m r m' H. unfold uploadVideoToSupabase, storageUpload in H.
  unfold_monad.
  destruct (storageFailure w (calls m) _);
    [|destruct (storage m !! _)]; injection H as _ <-; simpl; lia.
Qed.

Lemma atMost_sceneAudio (w : World) (k : nat) (dir : string) (i : nat) (t : string) :
  resendsAtMost w k -> atMost (S k) (sceneAudio w dir i t).
Proof.
  intros Hk.
  unfold sceneAudio. apply (atMost_weaken (S k + 0 + 0 + 0)); [lia|].
  apply atMost_bind; [|intros; apply atMost_ret].
  apply atMost_catch.
  - apply atMost_bind; [now apply atMost_speech|]. intros chunks.
    destruct (_ =? _)%nat; [apply atMost_throw | apply atMost_writeFile].
  - intros e. destruct (bool_decide _); apply atMost_throw.
Qed.

Lemma atMost_sceneImage (w : World) (dir : string) (i : nat) (t s : string) :
  atMost 2 (sceneImage w dir i t s).
Proof.
  unfold sceneImage. apply (atMost_bind 2 0); [|intros; apply atMost_ret].
  apply (atMost_catch 2 0); [|intros; apply atMost_throw].
  apply (atMost_bind 1 1); [apply atMost_fetch|]. intros first.
  apply (atMost_bind 1 0).
  - destruct (_ =? _)%nat; [|apply atMost_ret].
    apply (atMost_bind 0 1); [apply atMost_sleep | intros; apply atMost_fetch].
  - intros response. destruct (negb _); [apply atMost_throw | apply atMost_writeFile].
Qed.

Lemma atMost_getAudioDuration (w : World) (p : string) :
  atMost 1 (getAudioDuration w p).
Proof.
  unfold getAudioDuration. apply (atMost_bind 1 0); [apply atMost_probe|].
  intros [e|d]; [apply atMost_throw | apply atMost_ret].
Qed.

Lemma atMost_sceneLoop (w : World) (k : nat) (dir subject : string)
    (rest : list string) :
  resendsAtMost w k ->
  forall i acc, atMost ((k + 4) * List.length rest) (sceneLoop w dir subject i rest acc).
Proof.
  intros Hk.
  induction rest as [|scene rest IH]; intros i acc;
    [rewrite Nat.mul_0_r; apply atMost_ret|].
  cbn [sceneLoop].
  apply (atMost_weaken (S k + (2 + (1 + (k + 4) * List.length rest)))); [simpl; lia|].
  apply atMost_bind; [now apply atMost_sceneAudio | intros ?].
  apply atMost_bind; [apply atMost_sceneImage | intros ?].
  apply atMost_bind; [apply atMost_getAudioDuration | intros ?].
  apply IH.
Qed.

Lemma atMost_generateInTempDir (w : World) (k : nat) (dir : string) (id : NoteId)
    (text subject : string) :
  resendsAtMost w k ->
  atMost ((k + 4) * List.length (scenes text) + 2)
    (generateInTempDir w dir id text subject).
Proof.
  intros Hk. unfold generateInTempDir.
  destruct (_ =? _)%nat; [apply atMost_throw|].
  apply (atMost_weaken
           ((k + 4) * List.length (scenes text) + (0 + (0 + (1 + (0 + 1))))));
    [lia|].
  apply atMost_bind; [now apply atMost_sceneLoop | intros assets].
  apply atMost_bind; [apply atMost_writeFile | intros ?].
  apply atMost_bind; [apply atMost_writeFile | intros ?].
  apply atMost_bind; [apply atMost_encode | intros ?].
  apply atMost_bind; [apply atMost_readFile | intros video].
  destruct (_ =? _)%nat; [apply atMost_throw | apply atMost_upload].
Qed.

(** X4: when the speech SDK sends the request of a call again at most
    k times, a run over N scenes makes at most (k + 4) N + 2 requests to
    external services: per scene at most k + 1 speech requests, at most
    two image requests and one probe; then one encoder run and one
    upload. *)
Theorem run_makes_bounded_requests (w : World) (k : nat) (id : NoteId)
    (text subject : string) (m : Machine) (r : Result string) (m' : Machine) :
  resendsAtMost w k ->
  run (generateVideoAndUpload w id text subject) m = (r, m') ->
  calls m <= calls m'
  /\ calls m' <= calls m + (k + 4) * List.length (scenes text) + 2.
Proof.
  intros Hk H. apply WholeRun.run_inv in H as (m1 & Hbody & ->).
  apply (atMost_generateInTempDir w k) in Hbody; [|exact Hk]. simpl in *. lia.
Qed.

Lemma run_requests_witness :
  calls (run (generateVideoAndUpload resendingWorld (IdNumber 42) "Hi. Yo!" "Art")
           freshMachine).2 <= 14
  /\ calls (run (generateVideoAndUpload sampleWorld (IdNumber 42) "Hi. Yo!" "Art")
              freshMachine).2 <= 10.
Proof.
  split.
  - refine (proj2 (run_makes_bounded_requests resendingWorld 2 (IdNumber 42)
                     "Hi. Yo!" "Art" freshMachine _ _ _ (Pipeline.run_pair _ _))).
    intros n t. apply Nat.le_refl.
  - refine (proj2 (run_makes_bounded_requests sampleWorld 0 (IdNumber 42)
                     "Hi. Yo!" "Art" freshMachine _ _ _ (Pipeline.run_pair _ _))).
    intros n t. apply Nat.le_refl.
Defined.

(** With two repeated speech requests per scene, the run over two scenes
    makes twelve requests. *)
Example resending_run_requests :
  calls (run (generateVideoAndUpload resendingWorld (IdNumber 42) "Hi. Yo!" "Art")
           freshMachine).2 = 12.
Proof. vm_compute. reflexivity. Qed.

End Calls.

(** ** Runs in a world whose services work *)

Module Progress.

Lemma sceneAudio_healthy (w : World) (dir : string) (i : nat) (t : string)
    (m : Machine) :
  healthy w -> exists m1, sceneAudio w dir i t m = (Ok (audioPathOf dir i), m1).
Proof.
  intros Hw. destruct (speech_ok w Hw (calls m) t) as (chunks & E & Hne).
  unfold sceneAudio, convertAsStream, writeFile. unfold_monad. rewrite E.
  destruct (String.concat EmptyString chunks); [contradiction|].
  simpl. eauto.
Qed.

Lemma ok_not_503 (b : string) : ok (mkResponse 503 b) = false.
Proof. reflexivity. Qed.

Lemma sceneImage_available (w : World) (dir : string) (i : nat) (t s : string)
    (m : Machine) :
  imageAvailable w (calls m) (imagePrompt w s t) ->
  exists m1, sceneImage w dir i t s m = (Ok (imagePathOf dir i), m1).
Proof.
  intros Hw.
  unfold sceneImage, fetch, sleep, writeFile. unfold_monad.
  destruct Hw
    as [(st & b & E & Hok) | (b1 & st2 & b2 & E1 & E2 & Hok)].
  - rewrite E. simpl. destruct (st =? 503)%nat eqn:E503.
    + apply Nat.eqb_eq in E503. subst st. now rewrite ok_not_503 in Hok.
    + simpl. rewrite Hok. simpl. eauto.
  - rewrite E1. simpl. rewrite E2. simpl. rewrite Hok. simpl. eauto.
Qed.

Lemma sceneImage_healthy (w : World) (dir : string) (i : nat) (t s : string)
    (m : Machine) :
  healthy w -> exists m1, sceneImage w dir i t s m = (Ok (imagePathOf dir i), m1).
Proof. intros Hw. apply sceneImage_available, (image_ok w Hw). Qed.

Lemma getAudioDuration_healthy (w : World) (p : string) (m : Machine) :
  healthy w ->
  exists d m1, ffprobe w (calls m) p = ProbeMetadata d
               /\ getAudioDuration w p m = (Ok (orZero d), m1).
Proof.
  intros Hw. destruct (probe_ok w Hw (calls m) p) as (d & E).
  unfold getAudioDuration, ffprobeCall. unfold_monad. rewrite E. eauto.
Qed.

(** The loop goes through all scenes; every duration it records is one
    that the probe reported, with 0 for a missing or unusable one. *)
Lemma sceneLoop_healthy (w : World) (dir subject : string) (P : JsValue -> Prop)
    (rest : list string) :
  healthy w ->
  (forall n p d, ffprobe w n p = ProbeMetadata d -> P (orZero d)) ->
  forall i acc m,
  exists ds m1,
    List.length ds = List.length rest /\ Forall P ds
    /\ sceneLoop w dir subject i rest acc m
       = (Ok (acc ++ assetsFrom dir i ds)%list, m1).
Proof.
  intros Hw HP. induction rest as [|scene rest IH]; intros i acc m.
  - exists [], m. simpl. rewrite app_nil_r. repeat split. constructor.
  - cbn [sceneLoop]. unfold mbind, M_bind.
    destruct (sceneAudio_healthy w dir i (Str.trim scene) m Hw) as (m1 & ->).
    destruct (sceneImage_healthy w dir i (Str.trim scene) subject m1 Hw)
      as (m2 & ->).
    destruct (getAudioDuration_healthy w (audioPathOf dir i) m2 Hw)
      as (d & m3 & Hd & ->).
    destruct (IH (S i) (acc ++ [mkAsset (audioPathOf dir i) (imagePathOf dir i)
                                  (orZero d)])%list m3)
      as (ds & m4 & Hlen & Hall & ->).
    exists (orZero d :: ds), m4. simpl. rewrite Hlen, <- app_assoc.
    repeat split. constructor; [exact (HP _ _ _ Hd) | exact Hall].
Qed.

Lemma lists_differ (dir : string) :
  pathJoin dir "imagelist.txt" <> pathJoin dir "audiolist.txt".
Proof.
  unfold pathJoin. intros H. apply (inj (String.app dir)) in H. discriminate H.
Qed.

(** What follows the loop, when the encoder and the storage service
    work. *)
Lemma assemble_healthy (w : World) (dir : string) (id : NoteId)
    (assets : list SceneAsset) (m1 : Machine) :
  healthy w ->
  exists m',
    (writeFile (pathJoin dir "imagelist.txt") (imageListContent w assets);;
     writeFile (pathJoin dir "audiolist.txt") (audioListContent w assets);;
     encode w (pathJoin dir "imagelist.txt") (pathJoin dir "audiolist.txt")
       (pathJoin dir "final_video.mp4");;
     videoBuffer ← readFile (pathJoin dir "final_video.mp4");
     if (String.length videoBuffer =? 0)%nat
     then throw (Error "FFmpeg produced an empty video file.")
     else uploadVideoToSupabase w id videoBuffer) m1
    = (Ok (getPublicUrl w "videos" (videoKey w id)), m')
    /\ trace m' =
       (trace m1 ++
        [EWriteFile (pathJoin dir "imagelist.txt") (imageListContent w assets);
         EWriteFile (pathJoin dir "audiolist.txt") (audioListContent w assets);
         EEncode (pathJoin dir "imagelist.txt") (pathJoin dir "audiolist.txt")
           (pathJoin dir "final_video.mp4");
         EReadFile (pathJoin dir "final_video.mp4");
         EUpload "videos" (videoKey w id) true])%list.
Proof.
  intros Hw.
  unfold mbind, M_bind, writeFile at 1 2. cbn [fst snd].
  unfold encode. cbn [files calls emit tick].
  rewrite lookup_insert_eq.
  rewrite lookup_insert_ne by (apply not_eq_sym, lists_differ).
  rewrite lookup_insert_eq.
  match goal with |- context [ffmpeg w ?n (Some ?i) (Some ?a)] =>
    destruct (encode_ok w Hw n i a) as (out & -> & Hout) end.
  unfold readFile. cbn [files]. rewrite lookup_insert_eq.
  destruct out as [|c out]; [contradiction|]. cbn [String.length Nat.eqb].
  match goal with |- context [uploadVideoToSupabase w id ?v ?m] =>
    pose proof (Publisher.upload_stores w id v m (storage_ok w Hw _ _)) as Hu
  end.
  unfold run in Hu. rewrite Hu. eexists. split; [reflexivity|].
  simpl. now rewrite <- !app_assoc.
Qed.

Lemma forall_eq_repeat {A : Type} (x : A) (l : list A) :
  Forall (fun y => y = x) l -> l = repeat x (List.length l).
Proof.
  induction 1 as [|y l -> _ IH]; [reflexivity|]. simpl. now rewrite <- IH.
Qed.

(** The [try] block in a healthy world. *)
Lemma body_healthy (w : World) (dir : string) (id : NoteId)
    (text subject : string) (P : JsValue -> Prop) (m : Machine) :
  healthy w ->
  (forall n p d, ffprobe w n p = ProbeMetadata d -> P (orZero d)) ->
  scenes text <> [] ->
  exists ds m',
    List.length ds = List.length (scenes text) /\ Forall P ds
    /\ generateInTempDir w dir id text subject m
       = (Ok (getPublicUrl w "videos" (videoKey w id)), m')
    /\ In (EWriteFile (pathJoin dir "imagelist.txt")
             (imageListContent w (assetsFrom dir 0 ds))) (trace m').
Proof.
  intros Hw HP Hne. unfold generateInTempDir.
  destruct (List.length (scenes text) =? 0)%nat eqn:E.
  { apply Nat.eqb_eq in E. destruct (scenes text); [easy | discriminate]. }
  destruct (sceneLoop_healthy w dir subject P (scenes text) Hw HP 0 [] m)
    as (ds & m1 & Hlen & Hall & Hloop).
  simpl in Hloop.
  destruct (assemble_healthy w dir id (assetsFrom dir 0 ds) m1 Hw)
    as (m' & Hrest & Htrace).
  exists ds, m'. split; [exact Hlen|]. split; [exact Hall|]. split.
  - unfold mbind at 1. unfold M_bind at 1. rewrite Hloop. exact Hrest.
  - rewrite Htrace. apply in_or_app. right. now left.
Qed.

Lemma run_healthy (w : World) (id : NoteId) (text subject : string)
    (P : JsValue -> Prop) (m : Machine) :
  healthy w ->
  (forall n p d, ffprobe w n p = ProbeMetadata d -> P (orZero d)) ->
  scenes text <> [] ->
  exists ds m',
    List.length ds = List.length (scenes text) /\ Forall P ds
    /\ run (generateVideoAndUpload w id text subject) m
       = (Ok (getPublicUrl w "videos" (videoKey w id)), m')
    /\ In (EWriteFile (pathJoin (tempDirOf w) "imagelist.txt")
             (imageListContent w (assetsFrom (tempDirOf w) 0 ds))) (trace m').
Proof.
  intros Hw HP Hne.
  unfold run, generateVideoAndUpload, tokenMissing. rewrite (moduleLoaded w).
  unfold mbind, M_bind, tryFinally, mkdtemp. fold (tempDirOf w). cbn [fst snd].
  match goal with |- context [generateInTempDir w _ id text subject ?m0] =>
    destruct (body_healthy w (tempDirOf w) id text subject P m0 Hw HP Hne)
      as (ds & m1 & Hlen & Hall & -> & Hin) end.
  unfold rm. exists ds. eexists. split; [exact Hlen|]. split; [exact Hall|].
  split; [reflexivity|]. simpl. apply in_or_app. now left.
Qed.

(** X5: when the services work (speech comes back non-empty, images are
    available at once or after one 503, the probe and the encoder do not
    fail, the encoder's output is not empty, uploads are accepted),
    every text that has a terminator after a non-terminator character is
    turned into a published video: the run returns the public URL. *)
Theorem healthy_run_returns_url (w : World) (id : NoteId) (text subject : string)
    (m : Machine) :
  healthy w ->
  containsTerminator (dropLeadingTerminators text) = true ->
  exists m',
    run (generateVideoAndUpload w id text subject) m
    = (Ok (getPublicUrl w "videos" (videoKey w id)), m').
Proof.
  intros Hw Ht.
  destruct (run_healthy w id text subject (fun _ => True) m Hw)
    as (ds & m' & _ & _ & Hrun & _); [easy | now apply Splitter.scenes_nonempty|].
  now exists m'.
Qed.

Lemma sampleWorld_healthy : healthy sampleWorld.
Proof.
  constructor; simpl.
  - intros n text. exists ["ID3"; text]. split; [reflexivity | discriminate].
  - intros n prompt. unfold imageAvailable. simpl.
    destruct (n =? 1)%nat eqn:E.
    + right. apply Nat.eqb_eq in E. subst n. simpl. now exists "loading", 200, "PNG".
    + left. now exists 200, "PNG".
  - intros n path. eauto.
  - intros n images audios. now exists "MP4".
  - reflexivity.
Qed.

Lemma silentWorld_healthy : healthy silentWorld.
Proof.
  constructor; simpl.
  - intros n text. exists ["ID3"; text]. split; [reflexivity | discriminate].
  - intros n prompt. left. now exists 200, "PNG".
  - intros n path. eauto.
  - intros n images audios. now exists "MP4".
  - reflexivity.
Qed.

Lemma healthy_run_witness :
  exists m',
    run (generateVideoAndUpload sampleWorld (IdNumber 42) "Cells divide. They grow!"
           "Biology") freshMachine
    = (Ok "https://project.supabase.co/storage/v1/object/public/videos/note-videos/42.mp4",
       m').
Proof.
  exact (healthy_run_returns_url sampleWorld (IdNumber 42)
           "Cells divide. They grow!" "Biology" freshMachine sampleWorld_healthy
           eq_refl).
Defined.

(** X6: the agent accepts narrations without a usable duration: when
    every duration that the probe reports is falsy (missing, not a
    number, zero or the empty text), and the services work, the run still encodes and publishes,
    and the image list it writes gives every scene the duration 0. *)
Theorem unusable_durations_are_accepted (w : World) (id : NoteId)
    (text subject : string) (m : Machine) :
  healthy w ->
  (forall n p d, ffprobe w n p = ProbeMetadata d -> orZero d = JsNumber 0) ->
  scenes text <> [] ->
  exists m',
    run (generateVideoAndUpload w id text subject) m
    = (Ok (getPublicUrl w "videos" (videoKey w id)), m')
    /\ In (EWriteFile (pathJoin (tempDirOf w) "imagelist.txt")
             (imageListContent w
                (assetsFrom (tempDirOf w) 0
                   (repeat (JsNumber 0) (List.length (scenes text)))))) (trace m').
Proof.
  intros Hw Hz Hne.
  destruct (run_healthy w id text subject (fun d => d = JsNumber 0) m Hw Hz Hne)
    as (ds & m' & Hlen & Hall & Hrun & Hin).
  exists m'. split; [exact Hrun|].
  apply forall_eq_repeat in Hall. rewrite Hlen in Hall. now rewrite <- Hall.
Qed.

Lemma unusable_durations_witness :
  exists m',
    run (generateVideoAndUpload silentWorld (IdNumber 42) "Hi. Yo!" "Art")
      freshMachine
    = (Ok "https://project.supabase.co/storage/v1/object/public/videos/note-videos/42.mp4",
       m')
    /\ In (EWriteFile "/tmp/ai-video-AbC123/imagelist.txt"
             ("file '/tmp/ai-video-AbC123/scene_0.png'" +:+ newline +:+ "duration 0"
              +:+ newline +:+
              "file '/tmp/ai-video-AbC123/scene_1.png'" +:+ newline +:+ "duration 0"))
         (trace m').
Proof.
  refine (unusable_durations_are_accepted silentWorld (IdNumber 42) "Hi. Yo!" "Art"
            freshMachine silentWorld_healthy _ _).
  - intros n p d H. injection H as <-. reflexivity.
  - discriminate.
Defined.

End Progress.

(** ** The texts handed to the synthesizers *)

Module SceneTexts.

Import StrFacts.













End SceneTexts.

(** ** More on the request gateway *)

Module GatewayMore.

(** What an authorized request is answered. *)
Lemma authorized_cases (w : World) (req : Request) (m : Machine) :
  authorized w req ->
  run (generateVideoHandler w req) m = (Ok missingParameters, m)
  \/ exists id text subject,
       reqBody req = mkBody (Some id) (Some text) (Some subject)
       /\ ((exists url m',
              run (generateVideoAndUpload w id text subject) m = (Ok url, m')
              /\ run (generateVideoHandler w req) m = (Ok (complete url), m'))
           \/ (exists e m',
                 run (generateVideoAndUpload w id text subject) m = (Throw e, m')
                 /\ run (generateVideoHandler w req) m = (Ok (failed e), m'))).
Proof.
  intros Ha.
  destruct (notNoteId (noteId (reqBody req)) || notString (noteText (reqBody req))
            || notString (subjectName (reqBody req))) eqn:Hf.
  { left. now apply Gateway.handler_rejects. }
  right. apply orb_false_elim in Hf as [Hf H3].
  apply orb_false_elim in Hf as [H1 H2].
  destruct req as [auth [[id|] [text|] [subject|]]]; simpl in *; try discriminate.
  exists id, text, subject. split; [reflexivity|].
  rewrite (Gateway.handler_runs w _ m id text subject Ha eq_refl H1 H2 H3).
  destruct (run (generateVideoAndUpload w id text subject) m) as [[url|e] m'].
  - left. eauto.
  - right. eauto.
Qed.

(** X8: the handler never lets an error escape: every request is
    answered, with status 200, 400, 401 or 500; and status 200 is given
    only to an authorized request for which the agent returned a URL,
    which the answer carries. *)
Theorem handler_always_answers (w : World) (req : Request) (m : Machine) :
  exists reply m',
    run (generateVideoHandler w req) m = (Ok reply, m')
    /\ In (code reply) [200; 400; 401; 500]
    /\ (code reply = 200 ->
        authorized w req
        /\ exists id text subject url,
             reqBody req = mkBody (Some id) (Some text) (Some subject)
             /\ run (generateVideoAndUpload w id text subject) m = (Ok url, m')
             /\ json reply = [("status", "complete"); ("videoUrl", url)]).
Proof.
  destruct (decide (authorization req = Some (bearer (WORKER_SECRET_KEY w))))
    as [Ha|Ha]; fold (authorized w req) in Ha.
  - destruct (authorized_cases w req m Ha)
      as [H | (id & text & subject & Hb & [(url & m' & Hr & H) | (e & m' & Hr & H)])];
      rewrite H; eexists _, _; (split; [reflexivity|]); simpl;
      (split; [tauto|]); try discriminate.
    intros _. split; [exact Ha|]. now exists id, text, subject, url.
  - rewrite (Gateway.handler_unauthorized w req m Ha).
    eexists _, _. split; [reflexivity|]. simpl. split; [tauto | discriminate].
Qed.

(** X9: when no request secret is configured, the header that the
    gateway expects is the text [Bearer undefined]: a request carrying it
    passes the authorization check and is never answered 401. *)
Theorem unset_secret_accepts_bearer_undefined (w : World) (req : Request)
    (m : Machine) :
  WORKER_SECRET_KEY w = None ->
  authorization req = Some "Bearer undefined" ->
  authorized w req
  /\ exists reply m',
       run (generateVideoHandler w req) m = (Ok reply, m')
       /\ code reply <> 401.
Proof.
  intros Hk Hh.
  assert (Ha : authorized w req).
  { unfold authorized. now rewrite Hk, Hh. }
  split; [exact Ha|].
  destruct (authorized_cases w req m Ha)
    as [H | (id & text & subject & Hb & [(url & m' & Hr & H) | (e & m' & Hr & H)])];
    rewrite H; eexists _, _; (split; [reflexivity|]); discriminate.
Qed.

Lemma unset_secret_witness :
  exists reply m',
    run (generateVideoHandler unsecuredWorld
           (sampleRequest (Some "Bearer undefined") (Some (IdNumber 42))
              (Some "Hi.") (Some "Art"))) freshMachine = (Ok reply, m')
    /\ code reply <> 401.
Proof.
  exact (proj2 (unset_secret_accepts_bearer_undefined unsecuredWorld
                  (sampleRequest (Some "Bearer undefined") (Some (IdNumber 42))
                     (Some "Hi.") (Some "Art")) freshMachine eq_refl eq_refl)).
Defined.

End GatewayMore.

(** ** Keys of published videos, and styles of subjects *)

Module Keys.

Import StrFacts.

Lemma append_inj_r (a b c : string) : a +:+ c = b +:+ c -> a = b.
Proof.
  revert b. induction a as [|x a IH]; intros [|y b] H.
  - reflexivity.
  - rewrite append_nil_l, append_cons in H.
    apply (f_equal String.length) in H. simpl in H.
    rewrite length_append in H. lia.
  - rewrite append_nil_l, append_cons in H.
    apply (f_equal String.length) in H. simpl in H.
    rewrite length_append in H. lia.
  - rewrite !append_cons in H. injection H as -> H. f_equal. now apply IH.
Qed.

Lemma to_int_proper (z : Z) : Z.to_int z <> Decimal.Pos Decimal.Nil
                              /\ Z.to_int z <> Decimal.Neg Decimal.Nil.
Proof.
  destruct z as [|p|p]; simpl; split; try discriminate;
    intros H; injection H as H; now apply Unsigned.to_uint_nonnil in H.
Qed.

(** Printing an integer loses nothing. *)
Lemma ofZ_inj (a b : Z) : Str.ofZ a = Str.ofZ b -> a = b.
Proof.
  unfold Str.ofZ. intros H.
  apply (f_equal NilZero.int_of_string) in H.
  destruct (to_int_proper a), (to_int_proper b).
  rewrite !NilZero.isi in H by assumption.
  injection H as H. apply (f_equal Z.of_int) in H.
  now rewrite !DecimalZ.of_to in H.
Qed.

Lemma videoKey_inj (w : World) (a b : NoteId) :
  videoKey w a = videoKey w b -> noteIdToString w a = noteIdToString w b.
Proof.
  unfold videoKey. intros H. apply (inj (String.app _)) in H.
  now apply append_inj_r in H.
Qed.

(** X10: note ids that are safe integers of different value have
    different keys: publishing the video of one such note, whether it
    succeeds or fails, leaves the published video of the other as it
    was. *)
Theorem publishing_leaves_other_notes (w : World) (a b : float) (za zb : Z)
    (video : string) (m : Machine) (r : Result string) (m' : Machine) :
  safeInteger a = Some za -> safeInteger b = Some zb -> za <> zb ->
  run (uploadVideoToSupabase w (IdNumber a) video) m = (r, m') ->
  videoKey w (IdNumber a) = "note-videos/" +:+ Str.ofZ za +:+ ".mp4"
  /\ videoKey w (IdNumber b) = "note-videos/" +:+ Str.ofZ zb +:+ ".mp4"
  /\ videoKey w (IdNumber a) <> videoKey w (IdNumber b)
  /\ storage m' !! ("videos", videoKey w (IdNumber b))
     = storage m !! ("videos", videoKey w (IdNumber b)).
Proof.
  intros Ha Hb Hab Hrun.
  assert (Hka : videoKey w (IdNumber a) = "note-videos/" +:+ Str.ofZ za +:+ ".mp4").
  { unfold videoKey, noteIdToString, printNumber. now rewrite Ha. }
  assert (Hkb : videoKey w (IdNumber b) = "note-videos/" +:+ Str.ofZ zb +:+ ".mp4").
  { unfold videoKey, noteIdToString, printNumber. now rewrite Hb. }
  assert (Hk : videoKey w (IdNumber a) <> videoKey w (IdNumber b)).
  { intros H. apply videoKey_inj in H. unfold noteIdToString, printNumber in H.
    rewrite Ha, Hb in H. now apply ofZ_inj in H. }
  split; [exact Hka|]. split; [exact Hkb|]. split; [exact Hk|].
  destruct (storageFailure w (calls m) (videoKey w (IdNumber a))) as [e|] eqn:Hf.
  - rewrite (Publisher.upload_fails w _ video m e Hf) in Hrun.
    now injection Hrun as _ <-.
  - rewrite (Publisher.upload_stores w _ video m Hf) in Hrun.
    injection Hrun as _ <-. simpl. apply lookup_insert_ne. congruence.
Qed.

Lemma publishing_other_witness :
  storage (run (uploadVideoToSupabase sampleWorld (IdNumber 42) "new")
             (mkMachine ∅ ∅ {[("videos", "note-videos/7.mp4") := "seven"]} 0 [])).2
    !! ("videos", "note-videos/7.mp4") = Some "seven".
Proof.
  destruct (publishing_leaves_other_notes sampleWorld 42 7 42 7 "new"
              (mkMachine ∅ ∅ {[("videos", "note-videos/7.mp4") := "seven"]} 0 [])
              _ _ eq_refl eq_refl ltac:(discriminate) (Pipeline.run_pair _ _))
    as (_ & _ & _ & H).
  etransitivity; [exact H | reflexivity].
Defined.



End Keys.

(** ** The earlier agent *)

Module EarlierAgent.

Lemma earlier_run_inv (ew : EarlierWorld) (text subject : string) (m : Machine)
    (r : Result string) (m' : Machine) :
  run (Earlier.generateVideoFromNote ew text subject) m = (r, m') ->
  exists m1,
    Earlier.generateInTempDir ew (tempDirOf (base ew)) text subject
      (mkdtemp (base ew) (pathJoin (tmpdir (base ew)) "ai-video-") m).2 = (r, m1)
    /\ m' = (rm (tempDirOf (base ew)) m1).2.
Proof.
  unfold run, Earlier.generateVideoFromNote.
  unfold mbind, M_bind, tryFinally, mkdtemp. fold (tempDirOf (base ew)). simpl.
  destruct (Earlier.generateInTempDir _ _ _ _ _) as [r1 m1].
  unfold rm. intros H; injection H as <- <-. eauto.
Qed.

(** X12: every run of the earlier agent, whether it returns or throws,
    ends by removing its temporary directory with everything below it. *)
Theorem earlier_temp_dir_always_removed (ew : EarlierWorld)
    (text subject : string) (m : Machine) (r : Result string) (m' : Machine) :
  run (Earlier.generateVideoFromNote ew text subject) m = (r, m') ->
  (tempDirOf (base ew) ∉ dirs m')
  /\ (forall p, underDir (tempDirOf (base ew)) p = true -> files m' !! p = None)
  /\ exists pre, trace m' = (pre ++ [ERemove (tempDirOf (base ew))])%list.
Proof.
  intros H. apply earlier_run_inv in H as (m1 & _ & ->). unfold rm. simpl.
  split; [apply not_elem_of_difference; right; now apply elem_of_singleton|].
  split; [|eauto].
  intros p Hp. apply map_lookup_filter_None. right. intros x _. simpl.
  now rewrite Hp.
Qed.

Lemma earlier_temp_dir_witness :
  "/tmp/ai-video-AbC123" ∉
    dirs (run (Earlier.generateVideoFromNote earlierSample "Hi. Yo!" "Art")
            freshMachine).2.
Proof.
  exact (proj1 (earlier_temp_dir_always_removed earlierSample "Hi. Yo!" "Art"
                  freshMachine _ _ (Pipeline.run_pair _ _))).
Defined.

(** X13: for a text without a sentence terminator the earlier agent
    fails with the empty-input error; the temporary directory is created
    and removed and nothing else happens. *)
Theorem earlier_no_terminator_fails_early (ew : EarlierWorld)
    (text subject : string) (m : Machine) :
  containsTerminator text = false ->
  exists m',
    run (Earlier.generateVideoFromNote ew text subject) m
    = (Throw emptyInputError, m')
    /\ trace m' = (trace m ++ [EMkdtemp (tempDirOf (base ew));
                              ERemove (tempDirOf (base ew))])%list
    /\ calls m' = calls m /\ storage m' = storage m.
Proof.
  intros Hn.
  unfold run, Earlier.generateVideoFromNote, Earlier.generateInTempDir, mkdtemp, rm.
  unfold_monad. rewrite (Splitter.scenes_nil_no_terminator text Hn). simpl.
  eexists. split; [reflexivity|]. simpl.
  split; [now rewrite <- app_assoc|]. split; reflexivity.
Qed.

Lemma earlier_no_terminator_witness :
  exists m',
    run (Earlier.generateVideoFromNote earlierSample "hello world" "Art")
      freshMachine
    = (Throw (Error "Could not break note into scenes."), m')
    /\ trace m' = [EMkdtemp "/tmp/ai-video-AbC123"; ERemove "/tmp/ai-video-AbC123"].
Proof.
  destruct (earlier_no_terminator_fails_early earlierSample "hello world" "Art"
              freshMachine eq_refl) as (m' & R & T & _).
  exists m'. split; [exact R | exact T].
Defined.

(** X14: the speech block of the earlier agent writes the buffer
    whatever its length, so that a stream without data leaves an empty
    audio file and the block returns as usual; and it rethrows the error
    of a failed request as it is, a 401 like any other. *)
Theorem earlier_speech_writes_any_buffer (w : World) (dir : string) (i : nat)
    (text : string) (m : Machine) :
  (forall chunks,
     textToSpeech w (calls m) text = TtsStream chunks None ->
     exists m',
       run (Earlier.sceneAudio w dir i text) m = (Ok (audioPathOf dir i), m')
       /\ files m' !! audioPathOf dir i = Some (String.concat EmptyString chunks)
       /\ storage m' = storage m)
  /\ (forall e,
       ttsFailure (textToSpeech w (calls m) text) = Some e ->
       exists m',
         run (Earlier.sceneAudio w dir i text) m = (Throw e, m')
         /\ files m' = files m).
Proof.
  unfold Earlier.sceneAudio, convertAsStream, writeFile. unfold_monad.
  fold (audioPathOf dir i). split.
  - intros chunks E. rewrite E. simpl. eexists. split; [reflexivity|].
    simpl. split; [apply lookup_insert_eq | reflexivity].
  - intros e Hf.
    destruct (textToSpeech w (calls m) text) as [e0|chunks [e0|]];
      simpl in Hf; try discriminate; injection Hf as ->; simpl; eauto.
Qed.

Lemma earlier_speech_witness :
  exists m',
    run (Earlier.sceneAudio muteWorld "/tmp/ai-video-AbC123" 0 "Hi.") freshMachine
    = (Ok "/tmp/ai-video-AbC123/scene_0.mp3", m')
    /\ files m' !! "/tmp/ai-video-AbC123/scene_0.mp3" = Some EmptyString.
Proof.
  destruct (earlier_speech_writes_any_buffer muteWorld "/tmp/ai-video-AbC123" 0
              "Hi." freshMachine) as [H _].
  destruct (H [] eq_refl) as (m' & R & F & _).
  exists m'. split; [exact R | exact F].
Defined.

Lemma sceneAudio_streams (w : World) (dir : string) (i : nat) (text : string)
    (m : Machine) :
  (exists chunks, textToSpeech w (calls m) text = TtsStream chunks None) ->
  exists m1,
    Earlier.sceneAudio w dir i text m = (Ok (audioPathOf dir i), m1)
    /\ storage m1 = storage m.
Proof.
  intros (chunks & E).
  unfold Earlier.sceneAudio, convertAsStream, writeFile. unfold_monad.
  rewrite E. simpl. eauto.
Qed.

Ltac sbind := apply (Frame.keeps_bind _ Frame.sameStorage_trans).
Ltac scatch := apply (Frame.keeps_catch _ Frame.sameStorage_trans).
Ltac sret := apply (Frame.keeps_ret _ Frame.sameStorage_refl).
Ltac sthrow := apply (Frame.keeps_throw _ Frame.sameStorage_refl).

Lemma storage_sceneImage (w : World) (dir : string) (i : nat) (t s : string) :
  keeps sameStorage (sceneImage w dir i t s).
Proof.
  apply Frame.keeps_sceneImage;
    [ apply Frame.sameStorage_refl | apply Frame.sameStorage_trans
    | intros; apply Frame.storage_writeFile | intros; apply Frame.storage_sleep
    | intros; apply Frame.storage_fetch ].
Qed.

Lemma storage_sceneAudio (w : World) (dir : string) (i : nat) (t : string) :
  keeps sameStorage (Earlier.sceneAudio w dir i t).
Proof.
  unfold Earlier.sceneAudio. sbind; [|intros; sret].
  scatch; [|intros; sthrow].
  sbind; [apply Frame.storage_speech | intros; apply Frame.storage_writeFile].
Qed.

Lemma storage_getAudioDuration (ew : EarlierWorld) (p : string) :
  keeps sameStorage (Earlier.getAudioDuration ew p).
Proof.
  intros m r m' H. unfold Earlier.getAudioDuration, Earlier.spawnFfprobe in H.
  unfold_monad. destruct (Legacy.getAudioDuration _ _ _); now injection H as _ <-.
Qed.

Lemma storage_sceneLoop (ew : EarlierWorld) (dir subject : string)
    (rest : list string) :
  forall i acc, keeps sameStorage (Earlier.sceneLoop ew dir subject i rest acc).
Proof.
  induction rest as [|scene rest IH]; intros i acc; cbn [Earlier.sceneLoop];
    [sret|].
  sbind; [apply storage_sceneAudio | intros ?].
  sbind; [apply storage_sceneImage | intros ?].
  sbind; [apply storage_getAudioDuration | intros d].
  destruct (PrimFloat.leb d 0); [sthrow | apply IH].
Qed.

(** The first scene already stops the loop when no duration is usable. *)
Lemma first_scene_stops (ew : EarlierWorld) (dir subject scene : string)
    (rest : list string) (i : nat) (acc : list SceneAsset) (m : Machine) :
  (forall n t, exists chunks, textToSpeech (base ew) n t = TtsStream chunks None) ->
  (forall n p, imageAvailable (base ew) n p) ->
  reportsUnusableDuration ew ->
  exists m',
    Earlier.sceneLoop ew dir subject i (scene :: rest) acc m
    = (Throw (Error ("Audio for scene " +:+ Str.ofNat (i + 1)
                     +:+ " has zero duration.")), m')
    /\ storage m' = storage m.
Proof.
  intros Hs Hi Hp. cbn [Earlier.sceneLoop]. unfold mbind, M_bind.
  destruct (sceneAudio_streams (base ew) dir i (Str.trim scene) m (Hs _ _))
    as (m1 & -> & S1).
  destruct (Progress.sceneImage_available (base ew) dir i (Str.trim scene) subject
              m1 (Hi _ _)) as (m2 & E2).
  pose proof (storage_sceneImage _ _ _ _ _ _ _ _ E2) as S2. rewrite E2.
  unfold Earlier.getAudioDuration, Earlier.spawnFfprobe, mbind, M_bind,
    Legacy.getAudioDuration.
  destruct (Hp (calls m2) (audioPathOf dir i)) as [Hc Hd]. rewrite Hc.
  rewrite bool_decide_eq_true_2 by reflexivity.
  set (d := parseFloat ew _) in *.
  assert (Hle : PrimFloat.leb (if PrimFloat.is_nan d then 0%float else d) 0 = true).
  { destruct (PrimFloat.is_nan d); [reflexivity|]. now destruct Hd. }
  unfold mret, M_ret. rewrite Hle. unfold throw. eexists. split; [reflexivity|].
  simpl. unfold sameStorage in S2. congruence.
Qed.

(** X15: the earlier agent treats a narration without a usable
    duration as fatal: when the prober reports something that is not a
    number or not positive, a run that gets speech and image for its
    first scene throws [Audio for scene 1 has zero duration.] and
    publishes nothing. *)
Theorem earlier_unusable_duration_is_fatal (ew : EarlierWorld)
    (text subject : string) (m : Machine) :
  (forall n t, exists chunks, textToSpeech (base ew) n t = TtsStream chunks None) ->
  (forall n p, imageAvailable (base ew) n p) ->
  reportsUnusableDuration ew ->
  scenes text <> [] ->
  exists m',
    run (Earlier.generateVideoFromNote ew text subject) m
    = (Throw (Error "Audio for scene 1 has zero duration."), m')
    /\ storage m' = storage m.
Proof.
  intros Hs Hi Hp Hne.
  unfold run, Earlier.generateVideoFromNote, Earlier.generateInTempDir.
  unfold mbind at 1. unfold M_bind at 1. unfold mkdtemp, tryFinally.
  destruct (scenes text) as [|scene rest]; [easy|]. cbn [List.length Nat.eqb].
  unfold mbind at 1. unfold M_bind at 1.
  match goal with |- context [Earlier.sceneLoop ew ?d subject 0 _ [] ?m0] =>
    destruct (first_scene_stops ew d subject scene rest 0 [] m0 Hs Hi Hp)
      as (m1 & -> & S1) end.
  unfold rm. eexists. split; [reflexivity|]. simpl. exact S1.
Qed.

Lemma earlier_unusable_duration_witness :
  exists m',
    run (Earlier.generateVideoFromNote earlierSample "Hi. Yo!" "Art") freshMachine
    = (Throw (Error "Audio for scene 1 has zero duration."), m')
    /\ storage m' = ∅.
Proof.
  refine (earlier_unusable_duration_is_fatal earlierSample "Hi. Yo!" "Art"
            freshMachine _ _ _ _).
  - intros n t. now exists ["ID3"; t].
  - intros n p. left. now exists 200, "PNG".
  - intros n p. split; [reflexivity | now left].
  - discriminate.
Defined.

Lemma uploadVideo_cases (ew : EarlierWorld) (video : string) (m : Machine)
    (r : Result string) (m' : Machine) :
  Earlier.uploadVideo ew video m = (r, m') ->
  match r with
  | Throw e => storageFailure (base ew) (calls m)
                 (Earlier.fileNameAt (now ew (calls m))) = Some e
               /\ storage m' = storage m
  | Ok url =>
      url = getPublicUrl (base ew) "videos" (Earlier.fileNameAt (now ew (calls m)))
      /\ storage m' =
         <[("videos", Earlier.fileNameAt (now ew (calls m))):=video]> (storage m)
  end.
Proof.
  unfold Earlier.uploadVideo, storageUpload. unfold_monad.
  destruct (storageFailure (base ew) (calls m) _) as [e|].
  - intros H; injection H as <- <-. now split.
  - destruct (storage m !! _); intros H; injection H as <- <-; now split.
Qed.

Lemma earlier_body_storage (ew : EarlierWorld) (dir text subject : string)
    (m : Machine) (r : Result string) (m' : Machine) :
  Earlier.generateInTempDir ew dir text subject m = (r, m') ->
  match r with
  | Throw _ => storage m' = storage m
  | Ok url =>
      exists n video,
        video <> EmptyString
        /\ url = getPublicUrl (base ew) "videos" (Earlier.fileNameAt (now ew n))
        /\ storage m' =
           <[("videos", Earlier.fileNameAt (now ew n)):=video]> (storage m)
  end.
Proof.
  unfold Earlier.generateInTempDir.
  destruct (_ =? _)%nat.
  { intros H. unfold throw in H. now injection H as <- <-. }
  intros H.
  apply Frame.bind_inv in H as [(assets & m1 & H1 & H) | (e & H1 & ->)];
    [|exact (storage_sceneLoop _ _ _ _ _ _ _ _ _ H1)].
  pose proof (storage_sceneLoop _ _ _ _ _ _ _ _ _ H1) as S1.
  apply Frame.bind_inv in H as [([] & m2 & H2 & H) | (e & H2 & ->)];
    [|pose proof (Frame.storage_writeFile _ _ _ _ _ H2) as S2;
      unfold sameStorage in *; congruence].
  pose proof (Frame.storage_writeFile _ _ _ _ _ H2) as S2.
  apply Frame.bind_inv in H as [([] & m3 & H3 & H) | (e & H3 & ->)];
    [|pose proof (Frame.storage_writeFile _ _ _ _ _ H3) as S3;
      unfold sameStorage in *; congruence].
  pose proof (Frame.storage_writeFile _ _ _ _ _ H3) as S3.
  apply Frame.bind_inv in H as [([] & m4 & H4 & H) | (e & H4 & ->)];
    [|pose proof (Frame.storage_encode _ _ _ _ _ _ _ H4) as S4;
      unfold sameStorage in *; congruence].
  pose proof (Frame.storage_encode _ _ _ _ _ _ _ H4) as S4.
  apply Frame.bind_inv in H as [(video & m5 & H5 & H) | (e & H5 & ->)];
    [|pose proof (Frame.storage_readFile _ _ _ _ H5) as S5;
      unfold sameStorage in *; congruence].
  pose proof (Frame.storage_readFile _ _ _ _ H5) as S5.
  unfold sameStorage in *.
  destruct video as [|c video].
  - simpl in H. unfold throw in H. injection H as <- <-. congruence.
  - simpl in H. apply uploadVideo_cases in H. destruct r as [url|e].
    + destruct H as [-> Hs]. exists (calls m5), (String c video).
      split; [discriminate|]. split; [reflexivity|]. rewrite Hs. congruence.
    + destruct H as [_ Hs]. congruence.
Qed.

Lemma fileNameAt_inj (t1 t2 : Z) :
  Earlier.fileNameAt t1 = Earlier.fileNameAt t2 -> t1 = t2.
Proof.
  unfold Earlier.fileNameAt. intros H. apply (inj (String.app _)) in H.
  apply Keys.append_inj_r in H. now apply Keys.ofZ_inj.
Qed.

(** X16: a successful run of the earlier agent publishes its non-empty
    video under [video_<clock>.mp4], a key made from the clock reading
    alone: it changes the storage service at that key only, returns the
    public URL of that key, and two clock readings that differ give two
    different keys, so that a later run does not replace the video of an
    earlier one. *)
Theorem earlier_run_publishes_under_clock_key (ew : EarlierWorld)
    (text subject : string) (m : Machine) (url : string) (m' : Machine) :
  run (Earlier.generateVideoFromNote ew text subject) m = (Ok url, m') ->
  (exists n video,
     video <> EmptyString
     /\ url = getPublicUrl (base ew) "videos" (Earlier.fileNameAt (now ew n))
     /\ storage m' =
        <[("videos", Earlier.fileNameAt (now ew n)):=video]> (storage m))
  /\ (forall t1 t2, t1 <> t2 -> Earlier.fileNameAt t1 <> Earlier.fileNameAt t2).
Proof.
  intros H. split.
  - apply earlier_run_inv in H as (m1 & Hbody & ->).
    apply earlier_body_storage in Hbody. simpl in *. exact Hbody.
  - intros t1 t2 Hne Heq. now apply fileNameAt_inj in Heq.
Qed.

Lemma earlier_run_witness :
  exists n video,
    video <> EmptyString
    /\ "https://project.supabase.co/storage/v1/object/public/videos/video_1700000000000.mp4"
       = getPublicUrl (base earlierWorking) "videos"
           (Earlier.fileNameAt (now earlierWorking n))
    /\ storage (run (Earlier.generateVideoFromNote earlierWorking "Hi. Yo!" "Art")
                  freshMachine).2 =
       <[("videos", Earlier.fileNameAt (now earlierWorking n)):=video]> ∅.
Proof.
  assert (Hrun :
    run (Earlier.generateVideoFromNote earlierWorking "Hi. Yo!" "Art") freshMachine =
    (Ok "https://project.supabase.co/storage/v1/object/public/videos/video_1700000000000.mp4",
     (run (Earlier.generateVideoFromNote earlierWorking "Hi. Yo!" "Art")
        freshMachine).2)) by (vm_compute; reflexivity).
  exact (proj1 (earlier_run_publishes_under_clock_key _ _ _ _ _ _ Hrun)).
Defined.

End EarlierAgent.

(** ** The other speech block and the earlier gateway *)

Module Variants.

(** X17: in the speech block that posts the request itself, every
    failure (no API key, a rejected request whatever its status, a
    broken stream, a stream without data) ends in the one error
    [Failed during audio generation step.] with no audio file written
    (the body of a rejected request's response, which the handler logs,
    being read to its end); the block returns only when the key is set and the stream gave a
    non-empty buffer, which it has then written as the scene's audio. *)
Theorem axios_speech_has_one_error (apiKey : option string) (w : World)
    (dir : string) (i : nat) (text : string) (m : Machine) :
  exists m',
    (run (Axios.sceneAudio apiKey w dir i text) m
       = (Throw (Error "Failed during audio generation step."), m')
     /\ files m' = files m)
    \/ (exists chunks,
          notString apiKey = false
          /\ textToSpeech w (calls m) text = TtsStream chunks None
          /\ String.concat EmptyString chunks <> EmptyString
          /\ run (Axios.sceneAudio apiKey w dir i text) m
             = (Ok (audioPathOf dir i), m')
          /\ files m' !! audioPathOf dir i = Some (String.concat EmptyString chunks)).
Proof.
  unfold Axios.sceneAudio, Axios.post, writeFile. unfold_monad.
  fold (audioPathOf dir i).
  destruct (notString apiKey); simpl; [eauto|].
  destruct (textToSpeech w (calls m) text) as [e|chunks [e|]] eqn:E; simpl;
    [eauto | eauto |].
  destruct (String.concat EmptyString chunks) as [|c b] eqn:Hb; simpl; [eauto|].
  eexists. right. exists chunks. rewrite Hb.
  repeat split; [discriminate | apply lookup_insert_eq].
Qed.




End Variants.

(** ** Sample runs *)

Module Samples.

Example sample_run_result :
  (run (generateVideoAndUpload sampleWorld (IdNumber 42) "Cells divide. They grow!"
          "Biology") freshMachine).1 =
  Ok "https://project.supabase.co/storage/v1/object/public/videos/note-videos/42.mp4".
Proof. vm_compute. reflexivity. Qed.

Example sample_run_trace :
  trace (run (generateVideoAndUpload sampleWorld (IdNumber 42) "Hi. Yo!"
          "Art") freshMachine).2 =
  [ EMkdtemp "/tmp/ai-video-AbC123";
    ETextToSpeech voiceId modelId "Hi.";
    EWriteFile "/tmp/ai-video-AbC123/scene_0.mp3" "ID3Hi.";
    EFetch modelEndpoint "Bearer hf_token" (imagePrompt sampleWorld "Art" "Hi.");
    ESleep 20000;
    EFetch modelEndpoint "Bearer hf_token" (imagePrompt sampleWorld "Art" "Hi.");
    EWriteFile "/tmp/ai-video-AbC123/scene_0.png" "PNG";
    EProbe "/tmp/ai-video-AbC123/scene_0.mp3";
    ETextToSpeech voiceId modelId "Yo!";
    EWriteFile "/tmp/ai-video-AbC123/scene_1.mp3" "ID3Yo!";
    EFetch modelEndpoint "Bearer hf_token" (imagePrompt sampleWorld "Art" "Yo!");
    EWriteFile "/tmp/ai-video-AbC123/scene_1.png" "PNG";
    EProbe "/tmp/ai-video-AbC123/scene_1.mp3";
    EWriteFile "/tmp/ai-video-AbC123/imagelist.txt"
      ("file '/tmp/ai-video-AbC123/scene_0.png'" +:+ newline +:+ "duration 2.5"
       +:+ newline +:+
       "file '/tmp/ai-video-AbC123/scene_1.png'" +:+ newline +:+ "duration 2.5");
    EWriteFile "/tmp/ai-video-AbC123/audiolist.txt"
      ("file '/tmp/ai-video-AbC123/scene_0.mp3'" +:+ newline +:+
       "file '/tmp/ai-video-AbC123/scene_1.mp3'");
    EEncode "/tmp/ai-video-AbC123/imagelist.txt"
      "/tmp/ai-video-AbC123/audiolist.txt" "/tmp/ai-video-AbC123/final_video.mp4";
    EReadFile "/tmp/ai-video-AbC123/final_video.mp4";
    EUpload "videos" "note-videos/42.mp4" true;
    ERemove "/tmp/ai-video-AbC123" ].
Proof. vm_compute. reflexivity. Qed.

End Samples.
